(** * G-Calendar-Automation: a shallow embedding of [main.py]

    The script reads [calendar_events.csv], authenticates against the Google
    Calendar API and inserts one weekly-recurring event per data row.  This
    development embeds the three functions of the script
    ([authenticate_google_calendar], [create_weekly_recurrence],
    [add_events_from_csv]) and [main] as functions over an explicit state,
    and proves the properties of the specification about them.

    What is outside the script is modelled as follows.
    - The pieces of the Python library the script calls ([datetime.strptime],
      [isoformat], [strftime('%A')], [csv.DictReader], the [valid] and
      [expired] properties of a credential) follow the CPython and
      google-auth sources.
    - The remote parties (token endpoint, consent flow, calendar service) are
      oracles collected in the record [World].
    - Text is ASCII; [strftime('%A')] gives the English day names of the C
      locale.
    - The statements at module level (logging set-up, loading of [.env],
      the listing of the environment) only read the environment and write
      log lines; [environ] is the environment they leave. *)

From Stdlib Require Import ZArith String Ascii List Lia Bool.
From stdpp Require Import base option list strings gmap.

Open Scope string_scope.
Open Scope Z_scope.

(** ** Dates and times, after CPython's [datetime] *)

Module Datetime.

Record datetime := mk_datetime
  { year : Z; month : Z; day : Z; hour : Z; minute : Z; second : Z }.

(** [_is_leap] *)
Definition is_leap (y : Z) : bool :=
  (y mod 4 =? 0) && (negb (y mod 100 =? 0) || (y mod 400 =? 0)).

(** [_DAYS_IN_MONTH], read at an index from 1 to 12. *)
Definition DAYS_IN_MONTH (m : Z) : Z :=
  nth (Z.to_nat m) [-1; 31; 28; 31; 30; 31; 30; 31; 31; 30; 31; 30; 31] (-1).

(** [_days_in_month] *)
Definition days_in_month (y m : Z) : Z :=
  if (m =? 2) && is_leap y then 29 else DAYS_IN_MONTH m.

(** [_DAYS_BEFORE_MONTH]: the running sum of [_DAYS_IN_MONTH]. *)
Definition DAYS_BEFORE_MONTH (m : Z) : Z :=
  nth (Z.to_nat m) [-1; 0; 31; 59; 90; 120; 151; 181; 212; 243; 273; 304; 334] (-1).

(** [_days_before_year] *)
Definition days_before_year (y : Z) : Z :=
  let y' := y - 1 in y' * 365 + y' / 4 - y' / 100 + y' / 400.

(** [_days_before_month] *)
Definition days_before_month (y m : Z) : Z :=
  DAYS_BEFORE_MONTH m + (if (2 <? m) && is_leap y then 1 else 0).

(** [_ymd2ord]: 0001-01-01 is day 1. *)
Definition ymd2ord (y m d : Z) : Z :=
  days_before_year y + days_before_month y m + d.

Definition toordinal (dt : datetime) : Z :=
  ymd2ord (year dt) (month dt) (day dt).

(** [date.weekday]: Monday is 0, Sunday is 6. *)
Definition weekday (dt : datetime) : Z := (toordinal dt + 6) mod 7.

(** The range check of the [datetime] constructor. *)
Definition check_fields (dt : datetime) : bool :=
  (1 <=? year dt) && (year dt <=? 9999) &&
  (1 <=? month dt) && (month dt <=? 12) &&
  (1 <=? day dt) && (day dt <=? days_in_month (year dt) (month dt)) &&
  (0 <=? hour dt) && (hour dt <=? 23) &&
  (0 <=? minute dt) && (minute dt <=? 59) &&
  (0 <=? second dt) && (second dt <=? 59).

(** *** Rendering *)

Definition digit_char (d : Z) : ascii :=
  ascii_of_nat (48 + Z.to_nat (d mod 10)).

(** The [w] low decimal digits of [n], most significant first: what
    ["%0wd" % n] prints when [0 <= n < 10^w]. *)
Fixpoint zfill (w : nat) (n : Z) : string :=
  match w with
  | O => ""
  | S w' => zfill w' (n / 10) +:+ String (digit_char n) ""
  end.

(** [datetime.isoformat()] with the default separator; the microsecond
    part is absent because [strptime] with this format leaves it 0. *)
Definition isoformat (dt : datetime) : string :=
  zfill 4 (year dt) +:+ "-" +:+ zfill 2 (month dt) +:+ "-"
  +:+ zfill 2 (day dt) +:+ "T" +:+ zfill 2 (hour dt) +:+ ":"
  +:+ zfill 2 (minute dt) +:+ ":" +:+ zfill 2 (second dt).

(** [strftime('%A')]: the full weekday name. *)
Definition day_name (wd : Z) : string :=
  nth (Z.to_nat wd)
    ["Monday"; "Tuesday"; "Wednesday"; "Thursday"; "Friday"; "Saturday";
     "Sunday"] "".

Definition strftime_A (dt : datetime) : string := day_name (weekday dt).

End Datetime.

(** ** The few [str] operations the script uses *)

Module Str.

(** [s[:n]] *)
Fixpoint prefix (n : nat) (s : string) : string :=
  match n, s with
  | S n', String c s' => String c (prefix n' s')
  | _, _ => ""
  end.

Definition upper_char (c : ascii) : ascii :=
  let n := nat_of_ascii c in
  if (97 <=? n)%nat && (n <=? 122)%nat then ascii_of_nat (n - 32) else c.

(** [s.upper()] *)
Fixpoint upper (s : string) : string :=
  match s with
  | "" => ""
  | String c s' => String (upper_char c) (upper s')
  end.

End Str.

(** ** Exceptions and results *)

(** The exceptions the modelled code paths raise.  Each of them derives from
    Python's [Exception]; [HttpError] is the one the per-row handler names. *)
Inductive exn :=
| ValueError (msg : string)
| KeyError (key : string)
| StopIteration
| FileNotFoundError (path : string)
| HttpError (status : Z)
| RefreshError (msg : string)
| TransportError (msg : string)
| OtherError (name : string).

Inductive result (A : Type) :=
| Ok (a : A)
| Raise (e : exn).
Arguments Ok {A} a.
Arguments Raise {A} e.

(** [isinstance(e, HttpError)] *)
Definition isinstance_HttpError (e : exn) : bool :=
  match e with HttpError _ => true | _ => false end.

(** [isinstance(e, Exception)] *)
Definition isinstance_Exception (e : exn) : bool :=
  match e with
  | ValueError _ | KeyError _ | StopIteration | FileNotFoundError _
  | HttpError _ | RefreshError _ | TransportError _ | OtherError _ => true
  end.

(** ** [datetime.strptime(s, "%Y-%m-%d %H:%M")]

    CPython turns the format into the regular expression
    [(\d\d\d\d)-(1[0-2]|0[1-9]|[1-9])-(3[0-1]|[1-2]\d|0[1-9]|[1-9]| [1-9])\s+(2[0-3]|[0-1]\d|\d):([0-5]\d|\d)],
    takes the first match at the start of the text, rejects text left over,
    and builds the date, which checks the day against the month.  The
    expression is embedded as a parser returning its matches in the order a
    backtracking matcher finds them. *)

Module Strptime.
Import Datetime.

Definition re (A : Type) := string -> list (A * string).

Definition re_ret {A} (a : A) : re A := fun s => [(a, s)].

Definition re_bind {A B} (p : re A) (f : A -> re B) : re B :=
  fun s => flat_map (fun '(a, r) => f a r) (p s).

Definition re_alt {A} (p q : re A) : re A := fun s => (p s ++ q s)%list.

Notation "x <~ p ; q" := (re_bind p (fun x => q))
  (at level 20, p at level 100, q at level 200, only parsing).
Notation "p <|> q" := (re_alt p q) (at level 50, left associativity).

Definition digit_val (c : ascii) : Z := Z.of_nat (nat_of_ascii c) - 48.

(** A character class of digits, [[lo-hi]]. *)
Definition re_range (lo hi : Z) : re Z := fun s =>
  match s with
  | String c r =>
      if (lo <=? digit_val c) && (digit_val c <=? hi)
      then [(digit_val c, r)] else []
  | "" => []
  end.

(** [\d] *)
Definition re_digit : re Z := re_range 0 9.

(** One literal character. *)
Definition re_lit (c : ascii) : re unit := fun s =>
  match s with
  | String c' r => if Ascii.eqb c c' then [(tt, r)] else []
  | "" => []
  end.

(** [\s] on ASCII text. *)
Definition is_space (c : ascii) : bool :=
  let n := nat_of_ascii c in
  ((9 <=? n)%nat && (n <=? 13)%nat) || ((28 <=? n)%nat && (n <=? 32)%nat).

(** [\s+], greedy: the longest run first, then shorter ones. *)
Fixpoint re_spaces (s : string) : list (unit * string) :=
  match s with
  | String c r => if is_space c then (re_spaces r ++ [(tt, r)])%list else []
  | "" => []
  end.

(** [%Y] *)
Definition re_Y : re Z :=
  a <~ re_digit; b <~ re_digit; c <~ re_digit; d <~ re_digit;
  re_ret (1000 * a + 100 * b + 10 * c + d).

(** [%m] *)
Definition re_m : re Z :=
  (_ <~ re_lit "1"; b <~ re_range 0 2; re_ret (10 + b))
  <|> (_ <~ re_lit "0"; b <~ re_range 1 9; re_ret b)
  <|> re_range 1 9.

(** [%d] *)
Definition re_d : re Z :=
  (_ <~ re_lit "3"; b <~ re_range 0 1; re_ret (30 + b))
  <|> (a <~ re_range 1 2; b <~ re_digit; re_ret (10 * a + b))
  <|> (_ <~ re_lit "0"; b <~ re_range 1 9; re_ret b)
  <|> re_range 1 9
  <|> (_ <~ re_lit " "; b <~ re_range 1 9; re_ret b).

(** [%H] *)
Definition re_H : re Z :=
  (_ <~ re_lit "2"; b <~ re_range 0 3; re_ret (20 + b))
  <|> (a <~ re_range 0 1; b <~ re_digit; re_ret (10 * a + b))
  <|> re_digit.

(** [%M] *)
Definition re_M : re Z :=
  (a <~ re_range 0 5; b <~ re_digit; re_ret (10 * a + b))
  <|> re_digit.

Definition format_regex : re datetime :=
  Y <~ re_Y; _ <~ re_lit "-"; m <~ re_m; _ <~ re_lit "-"; d <~ re_d;
  _ <~ re_spaces; H <~ re_H; _ <~ re_lit ":"; M <~ re_M;
  re_ret (mk_datetime Y m d H M 0).

Definition strptime (data_string : string) : result datetime :=
  match format_regex data_string with
  | [] => Raise (ValueError "time data does not match format")
  | (dt, rest) :: _ =>
      if negb (rest =? "")%string
      then Raise (ValueError "unconverted data remains")
      else if check_fields dt then Ok dt
      else Raise (ValueError "day is out of range for month")
  end.

End Strptime.

(** ** The input table, after [csv.DictReader] *)

Module Csv.

(** A file is given by the records [csv.reader] yields for it, one list
    of fields per line; a blank line yields the empty record. *)
Definition record := list string.

(** The dict [DictReader] yields.  A field is [None] when the line was
    shorter than the header ([restval]); the fields beyond the header are
    kept under the key [None] ([restkey]), here [overflow]. *)
Record row := mk_row
  { fields : gmap string (option string);
    overflow : option (list string) }.

(** [dict(zip(fieldnames, record))], then the two length cases. *)
Definition make_row (fieldnames : list string) (r : record) : row :=
  let d := foldl (fun d kv => <[kv.1 := Some kv.2]> d) ∅ (zip fieldnames r) in
  let lf := length fieldnames in
  let lr := length r in
  if (lf <? lr)%nat then mk_row d (Some (drop lf r))
  else mk_row (foldl (fun d k => <[k := None]> d) d (drop lr fieldnames)) None.

(** [row[key]] *)
Definition getitem (r : row) (key : string) : result (option string) :=
  match fields r !! key with
  | Some v => Ok v
  | None => Raise (KeyError key)
  end.

(** Truth value of a dict: it has an entry. *)
Definition row_truthy (r : row) : bool :=
  negb (bool_decide (fields r = ∅)) || bool_decide (is_Some (overflow r)).

(** The reader over an open file: [unread] is what the file iterator has
    left, [contents] what [seek(0)] goes back to. *)
Record DictReader := mk_reader
  { contents : list record;
    unread : list record;
    _fieldnames : option (list string) }.

Definition open_reader (f : list record) : DictReader := mk_reader f f None.

(** The [fieldnames] property: the first access reads one record. *)
Definition fieldnames (rd : DictReader) : option (list string) * DictReader :=
  match _fieldnames rd with
  | Some f => (Some f, rd)
  | None =>
      match unread rd with
      | [] => (None, rd)
      | h :: t => (Some h, mk_reader (contents rd) t (Some h))
      end
  end.

(** [next(self.reader)] repeated while the record is empty. *)
Fixpoint next_record (l : list record) : option (record * list record) :=
  match l with
  | [] => None
  | [] :: t => next_record t
  | r :: t => Some (r, t)
  end.

(** [DictReader.__next__].  The source consults [fieldnames] only while
    [line_num] is 0; once a record has been read the property is set and
    consulting it again changes nothing. *)
Definition next (rd : DictReader) : result row * DictReader :=
  let '(fns, rd1) := fieldnames rd in
  match next_record (unread rd1) with
  | None => (Raise StopIteration, mk_reader (contents rd1) [] (_fieldnames rd1))
  | Some (r, t) =>
      let rd2 := mk_reader (contents rd1) t (_fieldnames rd1) in
      match fns with
      | Some f => (Ok (make_row f r), rd2)
      | None => (Raise (OtherError "TypeError"), rd2)
      end
  end.

(** [next(reader, None)] *)
Definition next_or_None (rd : DictReader) : option row * DictReader :=
  match next rd with
  | (Ok r, rd') => (Some r, rd')
  | (Raise _, rd') => (None, rd')
  end.

(** [file.seek(0)] *)
Definition seek0 (rd : DictReader) : DictReader :=
  mk_reader (contents rd) (contents rd) (_fieldnames rd).

End Csv.

(** ** Events, credentials, the world and the observable trace *)

Record time_point := mk_time_point { dateTime : string; timeZone : string }.

(** The [event] dict of [add_events_from_csv]; [end_] is its key ['end']. *)
Record Event := mk_Event
  { summary : option string;
    location : option string;
    description : option string;
    start : time_point;
    end_ : time_point;
    recurrence : list string }.

(** The credential bundle of google-auth. *)
Record Credentials := mk_Credentials
  { token : option string;
    expiry : option Z;
    refresh_token : option string }.

(** What [token.json] may hold. *)
Inductive token_file :=
| AuthorizedUser (c : Credentials)
| Malformed.

Record Service := mk_Service { credentials : Credentials }.

(** Everything the run reads from outside and the answers of the remote
    parties.  [execute_insert k] answers the insert call made after [k]
    earlier ones with the [htmlLink] of the created event or an exception. *)
Record World := mk_World
  { environ : gmap string string;
    calendar_events_csv : option (list Csv.record);
    utcnow : Z;
    REFRESH_THRESHOLD : Z;
    refresh_grant : Credentials -> result Credentials;
    run_local_server : result Credentials;
    build : Credentials -> result Service;
    execute_insert : nat -> string -> Event -> result (option string) }.

Inductive level := DEBUG | INFO | ERROR.

Inductive message :=
| Text (s : string)
| CsvColumns (f : option (list string))
| UsingCalendarId (c : option string)
| CreatingEvent (e : Event)
| EventCreated (link : option string)
| RowError (e : exn)
| RunError (e : exn).

(** What a run does to the outside, in order.  The three network calls are
    recorded with the answer they got. *)
Inductive effect :=
| Log (lvl : level) (msg : message)
| Pprint (r : Csv.row)
| TokenRefresh (answer : result Credentials)
| InteractiveGrant (answer : result Credentials)
| WriteToken (c : token_file)
| Insert (calendarId : string) (body : Event) (answer : result (option string)).

Record State := mk_State
  { token_json : option token_file;
    trace : list effect }.

Definition is_network (e : effect) : bool :=
  match e with
  | TokenRefresh _ | InteractiveGrant _ | Insert _ _ _ => true
  | _ => false
  end.

(** The bodies submitted, in call order. *)
Definition inserted (t : list effect) : list Event :=
  omap (fun e => match e with Insert _ b _ => Some b | _ => None end) t.

(** ** Stateful, fallible computations *)

Definition M (A : Type) := State -> result A * State.

Definition ret {A} (a : A) : M A := fun s => (Ok a, s).

Definition raise {A} (e : exn) : M A := fun s => (Raise e, s).

Definition bind {A B} (m : M A) (k : A -> M B) : M B := fun s =>
  match m s with
  | (Ok a, s') => k a s'
  | (Raise e, s') => (Raise e, s')
  end.

Definition lift {A} (r : result A) : M A := fun s => (r, s).

Definition emit (e : effect) : M unit := fun s =>
  (Ok tt, mk_State (token_json s) (trace s ++ [e])%list).

(** [try: m  except C as e: h e], where [catches] decides [isinstance(e, C)]. *)
Definition try_except {A} (m : M A) (catches : exn -> bool) (h : exn -> M A)
  : M A := fun s =>
  match m s with
  | (Ok a, s') => (Ok a, s')
  | (Raise e, s') => if catches e then h e s' else (Raise e, s')
  end.

Declare Scope py_scope.
Delimit Scope py_scope with py.
Notation "'let*' x ':=' m 'in' k" := (bind m (fun x => k))
  (at level 10, x name, m at level 100, k at level 200) : py_scope.
Notation "m ;; k" := (bind m (fun _ => k))
  (at level 100, k at level 200, right associativity) : py_scope.

(** The same sequencing for code without effects. *)
Definition result_bind {A B} (r : result A) (k : A -> result B) : result B :=
  match r with
  | Ok a => k a
  | Raise e => Raise e
  end.
Notation "'let?' x ':=' r 'in' k" := (result_bind r (fun x => k))
  (at level 10, x name, r at level 100, k at level 200) : py_scope.

Open Scope py_scope.

Definition logger (lvl : level) (msg : message) : M unit := emit (Log lvl msg).

(** Truth value of an optional [str]: neither [None] nor empty. *)
Definition str_truthy (o : option string) : bool :=
  match o with
  | Some s => negb (s =? "")%string
  | None => false
  end.

(** [os.getenv] *)
Definition getenv (w : World) (key : string) : option string := environ w !! key.

(** ** [authenticate_google_calendar] *)

Section Authentication.
Variable w : World.

(** [Credentials.expired] *)
Definition expired (c : Credentials) : bool :=
  match expiry c with
  | None => false
  | Some e => e - REFRESH_THRESHOLD w <=? utcnow w
  end.

(** [Credentials.valid] *)
Definition valid (c : Credentials) : bool :=
  bool_decide (is_Some (token c)) && negb (expired c).

(** [Credentials.from_authorized_user_file]: a token saved without an
    expiry is loaded as already expired. *)
Definition from_authorized_user_file (f : token_file) : result Credentials :=
  match f with
  | AuthorizedUser c =>
      Ok (mk_Credentials (token c)
            (Some (default (utcnow w - REFRESH_THRESHOLD w) (expiry c)))
            (refresh_token c))
  | Malformed => Raise (ValueError "token.json is not an authorized user file")
  end.

(** [creds.to_json()] *)
Definition to_json (c : Credentials) : token_file := AuthorizedUser c.

(** [creds.refresh(Request())]: one request to the token endpoint. *)
Definition refresh (c : Credentials) : M Credentials :=
  emit (TokenRefresh (refresh_grant w c));; lift (refresh_grant w c).

(** [InstalledAppFlow.from_client_secrets_file(...).run_local_server(port=8080)] *)
Definition new_authentication_flow : M Credentials :=
  emit (InteractiveGrant (run_local_server w));; lift (run_local_server w).

(** [with open('token.json', 'w') as token: token.write(...)] *)
Definition write_token_json (f : token_file) : M unit := fun s =>
  (Ok tt, mk_State (Some f) (trace s ++ [WriteToken f])%list).

(** The body of [if not creds or not creds.valid:]. *)
Definition obtain_credentials (creds : option Credentials) : M Credentials :=
  logger DEBUG (Text "Credentials are missing or invalid");;
  let* creds' :=
    match creds with
    | Some c =>
        if expired c && str_truthy (refresh_token c) then
          logger DEBUG (Text "Attempting to refresh expired credentials");;
          refresh c
        else
          logger DEBUG (Text "Starting new authentication flow");;
          new_authentication_flow
    | None =>
        logger DEBUG (Text "Starting new authentication flow");;
        new_authentication_flow
    end in
  logger DEBUG (Text "Saving credentials to token.json");;
  write_token_json (to_json creds');;
  ret creds'.

Definition authenticate_google_calendar : M Service :=
  let* creds :=
    (fun s =>
       match token_json s with
       | Some f =>
           (logger DEBUG (Text "Found existing token.json file");;
            let* c := lift (from_authorized_user_file f) in
            ret (Some c)) s
       | None => (Ok None, s)
       end) in
  let* creds :=
    match creds with
    | Some c => if negb (valid c) then obtain_credentials creds else ret c
    | None => obtain_credentials creds
    end in
  logger DEBUG (Text "Building Google Calendar service");;
  lift (build w creds).

End Authentication.

(** ** [create_weekly_recurrence] *)

Definition create_weekly_recurrence (start_date : Datetime.datetime) : list string :=
  let recurrence_rule :=
    "RRULE:FREQ=WEEKLY;COUNT=52;BYDAY="
    +:+ Str.upper (Str.prefix 2 (Datetime.strftime_A start_date)) in
  [recurrence_rule].

(** ** [add_events_from_csv] *)

Section EventImporter.
Variable w : World.

(** How an f-string renders a field: [None] prints as its name. *)
Definition format_field (v : option string) : string := default "None" v.

(** The pure part of the loop body: both [strptime] calls, then the
    [event] dict, its items evaluated in the order they are written. *)
Definition build_event (row : Csv.row) : result Event :=
  let? start_date := Csv.getitem row "Start Date" in
  let? start_time := Csv.getitem row "Start Time" in
  let? start_datetime :=
    Strptime.strptime (format_field start_date +:+ " " +:+ format_field start_time) in
  let? end_date := Csv.getitem row "End Date" in
  let? end_time := Csv.getitem row "End Time" in
  let? end_datetime :=
    Strptime.strptime (format_field end_date +:+ " " +:+ format_field end_time) in
  let? subject := Csv.getitem row "Subject" in
  let? location := Csv.getitem row "Location" in
  let? description := Csv.getitem row "Description" in
  Ok {| summary := subject;
        location := location;
        description := description;
        start := mk_time_point (Datetime.isoformat start_datetime) "America/New_York";
        end_ := mk_time_point (Datetime.isoformat end_datetime) "America/New_York";
        recurrence := create_weekly_recurrence start_datetime |}.

(** [service.events().insert(calendarId=..., body=...).execute()] *)
Definition events_insert (calendarId : string) (body : Event)
  : M (option string) := fun s =>
  let answer := execute_insert w (length (inserted (trace s))) calendarId body in
  (answer, mk_State (token_json s) (trace s ++ [Insert calendarId body answer])%list).

(** One iteration of [for row in reader:]. *)
Definition process_row (calendar_id : string) (row : Csv.row) : M unit :=
  let* event := lift (build_event row) in
  logger INFO (CreatingEvent event);;
  try_except
    (let* htmlLink := events_insert calendar_id event in
     logger INFO (EventCreated htmlLink))
    isinstance_HttpError
    (fun error => logger ERROR (RowError error)).

(** [for row in reader:] over the records left unread; the recursion
    follows [Csv.next_record]. *)
Fixpoint for_row_in_reader (fns : list string) (calendar_id : string)
    (l : list Csv.record) : M unit :=
  match l with
  | [] => ret tt
  | [] :: t => for_row_in_reader fns calendar_id t
  | r :: t =>
      process_row calendar_id (Csv.make_row fns r);;
      for_row_in_reader fns calendar_id t
  end.

Definition add_events_from_csv (service : Service) : M unit :=
  let* file :=
    lift (match calendar_events_csv w with
          | Some f => Ok f
          | None => Raise (FileNotFoundError "calendar_events.csv")
          end) in
  let reader := Csv.open_reader file in
  let '(fns, reader) := Csv.fieldnames reader in
  logger INFO (CsvColumns fns);;
  let '(first_row, reader) := Csv.next_or_None reader in
  match first_row with
  | Some r =>
      if Csv.row_truthy r
      then logger INFO (Text "First row of CSV data:");; emit (Pprint r)
      else ret tt
  | None => ret tt
  end;;
  let reader := Csv.seek0 reader in
  let '(header, reader) := Csv.next reader in
  lift header;;
  let calendar_id := getenv w "CALENDAR_ID" in
  logger INFO (UsingCalendarId calendar_id);;
  if negb (str_truthy calendar_id) then
    raise (ValueError "CALENDAR_ID is not set in the environment variables")
  else
    for_row_in_reader (default [] (Csv._fieldnames reader))
      (default "" calendar_id) (Csv.unread reader).

End EventImporter.

(** ** [main] *)

Definition main_try (w : World) : M unit :=
  let calendar_id := getenv w "CALENDAR_ID" in
  if negb (str_truthy calendar_id) then
    logger ERROR (Text "CALENDAR_ID is not set in the environment variables")
  else
    logger INFO (Text "Starting authentication process");;
    let* service := authenticate_google_calendar w in
    logger INFO (Text "Authentication successful");;
    add_events_from_csv w service.

Definition main (w : World) : M unit :=
  try_except (main_try w) isinstance_Exception
    (fun e => logger ERROR (RunError e)).

(** The status the interpreter exits with after running [main] as the
    script does: 0 when it returns, 1 when an exception escapes. *)
Definition exit_status (r : result unit) : Z :=
  match r with
  | Ok _ => 0
  | Raise _ => 1
  end.

Definition initial_state (tok : option token_file) : State := mk_State tok [].

(** ** Concrete inputs used in examples *)

Module Fixture.

Definition header : Csv.record :=
  ["Subject"; "Start Date"; "Start Time"; "End Date"; "End Time";
   "Description"; "Location"].

(** [Exercise,2024-10-14,07:00,2024-10-14,08:00,Workout,Gym] *)
Definition exercise : Csv.record :=
  ["Exercise"; "2024-10-14"; "07:00"; "2024-10-14"; "08:00"; "Workout"; "Gym"].

Definition reading : Csv.record :=
  ["Reading"; "2024-10-15"; "21:00"; "2024-10-15"; "21:30"; ""; "Home"].

(** A row whose start date is written day first. *)
Definition day_first : Csv.record :=
  ["Standup"; "16/10/2024"; "09:00"; "2024-10-16"; "09:15"; "Daily"; "Office"].

Definition lunch : Csv.record :=
  ["Lunch"; "2024-10-17"; "12:00"; "2024-10-17"; "13:00"; "Team"; "Cafe"].

Definition exercise_event : Event :=
  {| summary := Some "Exercise";
     location := Some "Gym";
     description := Some "Workout";
     start := mk_time_point "2024-10-14T07:00:00" "America/New_York";
     end_ := mk_time_point "2024-10-14T08:00:00" "America/New_York";
     recurrence := ["RRULE:FREQ=WEEKLY;COUNT=52;BYDAY=MO"] |}.

(** The same event with the rule written without its property name. *)
Definition exercise_event_bare_rule : Event :=
  {| summary := Some "Exercise";
     location := Some "Gym";
     description := Some "Workout";
     start := mk_time_point "2024-10-14T07:00:00" "America/New_York";
     end_ := mk_time_point "2024-10-14T08:00:00" "America/New_York";
     recurrence := ["FREQ=WEEKLY;COUNT=52;BYDAY=MO"] |}.

Definition reading_event : Event :=
  {| summary := Some "Reading";
     location := Some "Home";
     description := Some "";
     start := mk_time_point "2024-10-15T21:00:00" "America/New_York";
     end_ := mk_time_point "2024-10-15T21:30:00" "America/New_York";
     recurrence := ["RRULE:FREQ=WEEKLY;COUNT=52;BYDAY=TU"] |}.

Definition lunch_event : Event :=
  {| summary := Some "Lunch";
     location := Some "Cafe";
     description := Some "Team";
     start := mk_time_point "2024-10-17T12:00:00" "America/New_York";
     end_ := mk_time_point "2024-10-17T13:00:00" "America/New_York";
     recurrence := ["RRULE:FREQ=WEEKLY;COUNT=52;BYDAY=TH"] |}.

Definition fresh : Credentials :=
  mk_Credentials (Some "ya29.fresh") (Some 7200) (Some "1//refresh").

Definition stale : Credentials :=
  mk_Credentials (Some "ya29.stale") (Some 900) (Some "1//refresh").

(** A world where every remote party answers well; the clock reads 1000
    and the expiry margin is 225 seconds. *)
Definition world (env : gmap string string) (table : list Csv.record) : World :=
  {| environ := env;
     calendar_events_csv := Some table;
     utcnow := 1000;
     REFRESH_THRESHOLD := 225;
     refresh_grant := fun c => Ok (mk_Credentials (Some "ya29.new") (Some 4600) (refresh_token c));
     run_local_server := Ok fresh;
     build := fun c => Ok (mk_Service c);
     execute_insert := fun _ _ _ => Ok (Some "https://calendar.example/event") |}.

Definition with_calendar : gmap string string := {[ "CALENDAR_ID" := "primary" ]}.

(** The same world with a token endpoint that rejects the refresh token. *)
Definition world_revoked (table : list Csv.record) : World :=
  let w := world with_calendar table in
  mk_World (environ w) (calendar_events_csv w) (utcnow w) (REFRESH_THRESHOLD w)
    (fun _ => Raise (RefreshError "invalid_grant"))
    (run_local_server w) (build w) (execute_insert w).

(** The same world with a consent flow that fails. *)
Definition world_denied (table : list Csv.record) : World :=
  let w := world with_calendar table in
  mk_World (environ w) (calendar_events_csv w) (utcnow w) (REFRESH_THRESHOLD w)
    (refresh_grant w) (Raise (OtherError "AccessDeniedError"))
    (build w) (execute_insert w).

(** The same world with a calendar service that rejects the insert call
    made after [k] earlier ones. *)
Definition world_rejecting (k : nat) (table : list Csv.record) : World :=
  let w := world with_calendar table in
  mk_World (environ w) (calendar_events_csv w) (utcnow w) (REFRESH_THRESHOLD w)
    (refresh_grant w) (run_local_server w) (build w)
    (fun i _ _ => if (i =? k)%nat then Raise (HttpError 400)
                  else Ok (Some "https://calendar.example/event")).

End Fixture.

(** ** Reference notions used in the statements *)

(** The two-letter day codes of the recurrence syntax, Monday first. *)
Definition weekday_code (wd : Z) : string :=
  match wd with
  | 0 => "MO" | 1 => "TU" | 2 => "WE" | 3 => "TH" | 4 => "FR" | 5 => "SA"
  | _ => "SU"
  end.

(** The calendar day after [dt], for a date that passes [check_fields]. *)
Definition next_day (dt : Datetime.datetime) : Datetime.datetime :=
  let '(Datetime.mk_datetime y m d h mi s) := dt in
  if d <? Datetime.days_in_month y m then Datetime.mk_datetime y m (d + 1) h mi s
  else if m <? 12 then Datetime.mk_datetime y (m + 1) 1 h mi s
  else Datetime.mk_datetime (y + 1) 1 1 h mi s.

(** The calendar service answers every insert call with a created event or
    with an API error, the two answers its interface has. *)
Definition api_answers (w : World) : Prop :=
  forall k cal ev,
    match execute_insert w k cal ev with
    | Ok _ => True
    | Raise e => isinstance_HttpError e = true
    end.

(** The events built from the records of a table, one for one. *)
Definition row_events (hdr : Csv.record) (rows : list Csv.record)
    (evs : list Event) : Prop :=
  Forall2 (fun r ev => build_event (Csv.make_row hdr r) = Ok ev) rows evs.

Definition parses (text : string) : bool :=
  match Strptime.strptime text with
  | Ok _ => true
  | Raise _ => false
  end.

(** What one pass of the loop over valid rows adds to the trace, the first
    insert being call number [k]. *)
Fixpoint loop_trace (w : World) (cal : string) (k : nat) (evs : list Event)
  : list effect :=
  match evs with
  | [] => []
  | ev :: t =>
      let answer := execute_insert w k cal ev in
      Log INFO (CreatingEvent ev)
      :: Insert cal ev answer
      :: match answer with
         | Ok link => Log INFO (EventCreated link)
         | Raise e => Log ERROR (RowError e)
         end
      :: loop_trace w cal (S k) t
  end.

(** What [add_events_from_csv] adds to the trace before the loop. *)
Definition prelude_trace (hdr : Csv.record) (rows : list Csv.record)
    (cal : string) : list effect :=
  (Log INFO (CsvColumns (Some hdr))
   :: match Csv.next_record rows with
      | Some (r, _) =>
          if Csv.row_truthy (Csv.make_row hdr r)
          then [Log INFO (Text "First row of CSV data:"); Pprint (Csv.make_row hdr r)]
          else []
      | None => []
      end
   ++ [Log INFO (UsingCalendarId (Some cal))])%list.

Definition is_created_log (e : effect) : bool :=
  match e with Log INFO (EventCreated _) => true | _ => false end.

Definition is_row_error_log (e : effect) : bool :=
  match e with Log ERROR (RowError _) => true | _ => false end.

Definition is_refresh (e : effect) : bool :=
  match e with TokenRefresh _ => true | _ => false end.

Definition is_interactive (e : effect) : bool :=
  match e with InteractiveGrant _ => true | _ => false end.

(** The credentials that replaced the one in memory: the answers of the
    refreshes and grants that succeeded, in order. *)
Definition replacements (t : list effect) : list Credentials :=
  omap (fun e => match e with
                 | TokenRefresh (Ok c) | InteractiveGrant (Ok c) => Some c
                 | _ => None
                 end) t.

(** What was written to [token.json], in order. *)
Definition writes (t : list effect) : list token_file :=
  omap (fun e => match e with WriteToken f => Some f | _ => None end) t.

(** [s'] is [s] after effects that leave the credential alone: no refresh,
    no grant, no write, and [token.json] as it was. *)
Definition adds_quietly (s s' : State) : Prop :=
  exists added,
    s' = mk_State (token_json s) (trace s ++ added) /\
    replacements added = [] /\ writes added = [].

Definition quiet {A} (m : M A) : Prop :=
  forall s, adds_quietly s (snd (m s)).

(** ** The statements at module level *)

(** [for key, value in os.environ.items():] over the listing [items] of the
    environment, in its own order. *)
Fixpoint log_environment (items : list (string * string)) : M unit :=
  match items with
  | [] => ret tt
  | (key, value) :: rest =>
      (if (key =? "CALENDAR_ID")%string
       then logger INFO (Text (key +:+ ": " +:+ value))
       else logger INFO (Text (key +:+ ": [REDACTED]")));;
      log_environment rest
  end.

(** What runs when the module is loaded, from [find_dotenv] to the check of
    [CALENDAR_ID]; [dotenv_path] is what [find_dotenv] returned and [items]
    the environment after [load_dotenv]. *)
Definition module_level (w : World) (dotenv_path : string)
    (items : list (string * string)) : M unit :=
  logger INFO (Text ("Found .env file: " +:+ dotenv_path));;
  logger INFO (Text "Environment variables:");;
  log_environment items;;
  let calendar_id := getenv w "CALENDAR_ID" in
  if str_truthy calendar_id then
    logger INFO (Text ("CALENDAR_ID is set: " +:+ default "" calendar_id))
  else
    logger ERROR (Text "CALENDAR_ID is not set in the environment variables").

(** ** Further reference notions *)

(** Two listings of an environment with the same names in the same order
    and the same value for [CALENDAR_ID]. *)
Definition same_names (a b : list (string * string)) : Prop :=
  Forall2 (fun x y => x.1 = y.1 /\ (x.1 = "CALENDAR_ID" -> x.2 = y.2)) a b.

(** The log line of the listing for one variable. *)
Definition environment_line (item : string * string) : effect :=
  Log INFO (Text (if (item.1 =? "CALENDAR_ID")%string
                  then item.1 +:+ ": " +:+ item.2
                  else item.1 +:+ ": [REDACTED]")).

(** The records of a table without its blank lines. *)
Definition drop_blank (l : list Csv.record) : list Csv.record :=
  List.filter (fun r => negb (length r =? 0)%nat) l.

(** The world with another events file. *)
Definition with_table (w : World) (t : option (list Csv.record)) : World :=
  mk_World (environ w) t (utcnow w) (REFRESH_THRESHOLD w) (refresh_grant w)
    (run_local_server w) (build w) (execute_insert w).

(** The seven column names the loop body reads. *)
Definition columns_read : list string :=
  ["Start Date"; "Start Time"; "End Date"; "End Time"; "Subject"; "Location";
   "Description"].

(** The date and the time of [dt] written as the input format documents
    them, [YYYY-MM-DD] and [HH:MM]. *)
Definition date_text (dt : Datetime.datetime) : string :=
  Datetime.zfill 4 (Datetime.year dt) +:+ "-"
  +:+ Datetime.zfill 2 (Datetime.month dt) +:+ "-"
  +:+ Datetime.zfill 2 (Datetime.day dt).

Definition time_text (dt : Datetime.datetime) : string :=
  Datetime.zfill 2 (Datetime.hour dt) +:+ ":"
  +:+ Datetime.zfill 2 (Datetime.minute dt).

(** The effects of the import: log lines, the preview of the first row and
    insert calls. *)
Definition is_import_effect (e : effect) : bool :=
  match e with
  | Log _ _ | Pprint _ | Insert _ _ _ => true
  | _ => false
  end.

(** The effects of authentication: log lines, the two kinds of token
    request and the write of [token.json]. *)
Definition is_auth_effect (e : effect) : bool :=
  match e with
  | Log _ _ | TokenRefresh _ | InteractiveGrant _ | WriteToken _ => true
  | _ => false
  end.

(** [m] keeps [token.json] and adds only effects accepted by [p]. *)
Definition adds_only {A} (p : effect -> bool) (m : M A) : Prop :=
  forall s, exists added,
    snd (m s) = mk_State (token_json s) (trace s ++ added) /\
    forallb p added = true.

(** The token endpoint, the consent flow and the client builder all answer
    well. *)
Definition remote_parties_answer (w : World) : Prop :=
  (forall c, exists c', refresh_grant w c = Ok c') /\
  (exists c, run_local_server w = Ok c) /\
  (forall c, exists service, build w c = Ok service).

(** * Properties *)

(** ** The date and time library model on known values *)

Module DatetimeExamples.
Import Datetime Strptime.

Example strptime_ok :
  strptime "2024-10-14 07:00" = Ok (mk_datetime 2024 10 14 7 0 0).
Proof. reflexivity. Qed.

Example strptime_short_fields :
  strptime "2024-1-5  7:5" = Ok (mk_datetime 2024 1 5 7 5 0).
Proof. reflexivity. Qed.

Example strptime_feb30 :
  strptime "2024-02-30 07:00" = Raise (ValueError "day is out of range for month").
Proof. reflexivity. Qed.

Example strptime_slashes :
  strptime "14/10/2024 07:00" = Raise (ValueError "time data does not match format").
Proof. reflexivity. Qed.

Example strptime_seconds :
  strptime "2024-10-14 07:00:00" = Raise (ValueError "unconverted data remains").
Proof. reflexivity. Qed.

Example isoformat_ok :
  isoformat (mk_datetime 2024 10 14 7 0 0) = "2024-10-14T07:00:00".
Proof. reflexivity. Qed.

Example weekday_2024_10_14 : weekday (mk_datetime 2024 10 14 7 0 0) = 0.
Proof. reflexivity. Qed.

Example weekday_2000_02_29 : weekday (mk_datetime 2000 2 29 0 0 0) = 1.
Proof. reflexivity. Qed.

Example weekday_1970_01_01 : weekday (mk_datetime 1970 1 1 0 0 0) = 3.
Proof. reflexivity. Qed.
End DatetimeExamples.

(** ** The recurrence rule *)

Lemma weekday_range (dt : Datetime.datetime) : 0 <= Datetime.weekday dt < 7.
Proof. unfold Datetime.weekday. apply Z.mod_pos_bound. lia. Qed.

Lemma day_name_code (wd : Z) :
  0 <= wd < 7 -> Str.upper (Str.prefix 2 (Datetime.day_name wd)) = weekday_code wd.
Proof.
  intros H.
  assert (wd = 0 \/ wd = 1 \/ wd = 2 \/ wd = 3 \/ wd = 4 \/ wd = 5 \/ wd = 6)
    as Hcases by lia.
  repeat destruct Hcases as [-> | Hcases]; try subst wd; reflexivity.
Qed.

Lemma create_weekly_recurrence_eq (dt : Datetime.datetime) :
  create_weekly_recurrence dt
  = ["RRULE:FREQ=WEEKLY;COUNT=52;BYDAY=" +:+ weekday_code (Datetime.weekday dt)].
Proof.
  unfold create_weekly_recurrence, Datetime.strftime_A.
  now rewrite day_name_code by apply weekday_range.
Qed.

(** *** The ordinal counts calendar days

    The weekday is read off the day number [toordinal].  That number grows
    by one from each date to the next, over month ends, year ends and leap
    days, so with one known date (2024-10-14, a Monday) the weekday of the
    model is the weekday of the calendar. *)

Lemma leap_year_length (y : Z) :
  Datetime.days_before_year (y + 1)
  = Datetime.days_before_year y + 365 + (if Datetime.is_leap y then 1 else 0).
Proof.
  unfold Datetime.days_before_year, Datetime.is_leap. cbv zeta.
  replace (y + 1 - 1) with y by lia.
  destruct (Z.eqb_spec (y mod 4) 0), (Z.eqb_spec (y mod 100) 0),
    (Z.eqb_spec (y mod 400) 0); cbn [negb andb orb];
    Z.to_euclidean_division_equations; lia.
Qed.

Lemma month_length (y m : Z) :
  1 <= m < 12 ->
  Datetime.days_before_month y (m + 1)
  = Datetime.days_before_month y m + Datetime.days_in_month y m.
Proof.
  intros H. unfold Datetime.days_before_month, Datetime.days_in_month.
  assert (m = 1 \/ m = 2 \/ m = 3 \/ m = 4 \/ m = 5 \/ m = 6 \/ m = 7 \/ m = 8
          \/ m = 9 \/ m = 10 \/ m = 11) as Hm by lia.
  repeat destruct Hm as [-> | Hm]; try subst m;
    destruct (Datetime.is_leap y); reflexivity.
Qed.

Lemma toordinal_next_day (dt : Datetime.datetime) :
  Datetime.check_fields dt = true ->
  Datetime.toordinal (next_day dt) = Datetime.toordinal dt + 1.
Proof.
  unfold Datetime.check_fields, next_day, Datetime.toordinal, Datetime.ymd2ord.
  intros H. repeat (apply andb_prop in H; destruct H as [H ?]).
  destruct dt as [y m d h mi s]; cbn [Datetime.year Datetime.month Datetime.day] in *.
  destruct (Z.ltb_spec d (Datetime.days_in_month y m));
    cbn [Datetime.year Datetime.month Datetime.day]; [lia|].
  destruct (Z.ltb_spec m 12); cbn [Datetime.year Datetime.month Datetime.day].
  - rewrite month_length by lia. lia.
  - assert (m = 12) as -> by lia.
    assert (Datetime.days_in_month y 12 = 31) as Hdim by reflexivity.
    assert (Datetime.days_before_month (y + 1) 1 = 0) as -> by reflexivity.
    assert (Datetime.days_before_month y 12
            = 334 + (if Datetime.is_leap y then 1 else 0)) as -> by reflexivity.
    rewrite leap_year_length. lia.
Qed.

(** The day after carries the next weekday. *)
Lemma weekday_next_day (dt : Datetime.datetime) :
  Datetime.check_fields dt = true ->
  Datetime.weekday (next_day dt) = (Datetime.weekday dt + 1) mod 7.
Proof.
  intros H. unfold Datetime.weekday. rewrite (toordinal_next_day dt H).
  rewrite Zplus_mod_idemp_l. f_equal. lia.
Qed.

(** What [strptime] returns has passed the range check. *)
Lemma strptime_check_fields (text : string) (dt : Datetime.datetime) :
  Strptime.strptime text = Ok dt -> Datetime.check_fields dt = true.
Proof.
  unfold Strptime.strptime.
  destruct (Strptime.format_regex text) as [|[dt0 rest] l]; [discriminate|].
  destruct (negb _); [discriminate|].
  destruct (Datetime.check_fields dt0) eqn:E; [|discriminate].
  now intros [= <-].
Qed.

(** What [build_event] returns, read off its definition. *)
Lemma build_event_Ok (row : Csv.row) (ev : Event) :
  build_event row = Ok ev ->
  exists sd st dt ed et dt' su lo de,
    Csv.getitem row "Start Date" = Ok sd /\
    Csv.getitem row "Start Time" = Ok st /\
    Strptime.strptime (format_field sd +:+ " " +:+ format_field st) = Ok dt /\
    Csv.getitem row "End Date" = Ok ed /\
    Csv.getitem row "End Time" = Ok et /\
    Strptime.strptime (format_field ed +:+ " " +:+ format_field et) = Ok dt' /\
    Csv.getitem row "Subject" = Ok su /\
    Csv.getitem row "Location" = Ok lo /\
    Csv.getitem row "Description" = Ok de /\
    ev = mk_Event su lo de
           (mk_time_point (Datetime.isoformat dt) "America/New_York")
           (mk_time_point (Datetime.isoformat dt') "America/New_York")
           (create_weekly_recurrence dt).
Proof.
  unfold build_event, result_bind. intros H.
  destruct (Csv.getitem row "Start Date") as [sd|] eqn:E1; [|discriminate].
  destruct (Csv.getitem row "Start Time") as [st|] eqn:E2; [|discriminate].
  destruct (Strptime.strptime _) as [dt|] eqn:E3; [|discriminate].
  destruct (Csv.getitem row "End Date") as [ed|] eqn:E4; [|discriminate].
  destruct (Csv.getitem row "End Time") as [et|] eqn:E5; [|discriminate].
  destruct (Strptime.strptime (_ ed +:+ _)) as [dt'|] eqn:E6; [|discriminate].
  destruct (Csv.getitem row "Subject") as [su|] eqn:E7; [|discriminate].
  destruct (Csv.getitem row "Location") as [lo|] eqn:E8; [|discriminate].
  destruct (Csv.getitem row "Description") as [de|] eqn:E9; [|discriminate].
  exists sd, st, dt, ed, et, dt', su, lo, de.
  injection H as <-. repeat split; assumption.
Qed.

(** C1, as the code has it.  For every row from which an event is built,
    the event's recurrence is the one-element list holding
    [RRULE:FREQ=WEEKLY;COUNT=52;BYDAY=XX], where [XX] is the first two
    letters, in upper case, of the weekday name of the parsed start date;
    and [XX] is the code of that weekday in the table MO, TU, WE, TH, FR,
    SA, SU. *)
Theorem recurrence_of_row (row : Csv.row) (ev : Event) :
  build_event row = Ok ev ->
  exists sd st dt,
    Csv.getitem row "Start Date" = Ok sd /\
    Csv.getitem row "Start Time" = Ok st /\
    Strptime.strptime (format_field sd +:+ " " +:+ format_field st) = Ok dt /\
    recurrence ev
    = ["RRULE:FREQ=WEEKLY;COUNT=52;BYDAY="
       +:+ Str.upper (Str.prefix 2 (Datetime.strftime_A dt))] /\
    Str.upper (Str.prefix 2 (Datetime.strftime_A dt))
    = weekday_code (Datetime.weekday dt).
Proof.
  intros H. apply build_event_Ok in H.
  destruct H as (sd & st & dt & ed & et & dt' & su & lo & de & H1 & H2 & H3 & _ & _ & _ & _ & _ & _ & ->).
  exists sd, st, dt. repeat split; try assumption.
  apply day_name_code, weekday_range.
Qed.

Lemma recurrence_of_row_witness :
  exists sd st dt,
    Csv.getitem (Csv.make_row Fixture.header Fixture.exercise) "Start Date" = Ok sd /\
    Csv.getitem (Csv.make_row Fixture.header Fixture.exercise) "Start Time" = Ok st /\
    Strptime.strptime (format_field sd +:+ " " +:+ format_field st) = Ok dt /\
    recurrence Fixture.exercise_event
    = ["RRULE:FREQ=WEEKLY;COUNT=52;BYDAY="
       +:+ Str.upper (Str.prefix 2 (Datetime.strftime_A dt))] /\
    Str.upper (Str.prefix 2 (Datetime.strftime_A dt))
    = weekday_code (Datetime.weekday dt).
Proof.
  apply (recurrence_of_row (Csv.make_row Fixture.header Fixture.exercise)
           Fixture.exercise_event).
  vm_compute. reflexivity.
Defined.

(** C1 as the specification words it fails: for a Monday start the rule the
    code derives is not the bare string [FREQ=WEEKLY;COUNT=52;BYDAY=MO]. *)
Lemma recurrence_is_not_bare_rule :
  Datetime.weekday (Datetime.mk_datetime 2024 10 14 7 0 0) = 0 /\
  create_weekly_recurrence (Datetime.mk_datetime 2024 10 14 7 0 0)
  <> ["FREQ=WEEKLY;COUNT=52;BYDAY=MO"].
Proof. split; [reflexivity | discriminate]. Qed.

(** ** The entry point *)

Lemma isinstance_Exception_all (e : exn) : isinstance_Exception e = true.
Proof. destruct e; reflexivity. Qed.

(** [main] when the guard on the calendar identifier fires. *)
Lemma main_guard (w : World) (s : State) :
  str_truthy (getenv w "CALENDAR_ID") = false ->
  main w s
  = (Ok tt,
     mk_State (token_json s)
       (trace s ++ [Log ERROR (Text "CALENDAR_ID is not set in the environment variables")])).
Proof.
  intros H. unfold main, try_except, main_try. rewrite H. reflexivity.
Qed.

Lemma str_truthy_false (o : option string) :
  str_truthy o = false <-> o = None \/ o = Some "".
Proof.
  destruct o as [s|]; simpl.
  - destruct s; simpl; split; intros H; try discriminate; auto.
    destruct H as [H|H]; discriminate.
  - split; auto.
Qed.

(** C7, as the code has it.  When the calendar identifier is absent from the
    environment or empty, [main] logs one error line and returns: no
    exception is raised and the exit status is that of a successful run. *)
Theorem main_without_calendar_id (w : World) (tok : option token_file) :
  getenv w "CALENDAR_ID" = None \/ getenv w "CALENDAR_ID" = Some "" ->
  fst (main w (initial_state tok)) = Ok tt /\
  exit_status (fst (main w (initial_state tok))) = 0 /\
  snd (main w (initial_state tok))
  = mk_State tok
      [Log ERROR (Text "CALENDAR_ID is not set in the environment variables")].
Proof.
  intros H. apply str_truthy_false in H.
  rewrite (main_guard w (initial_state tok) H). repeat split.
Qed.

Lemma main_without_calendar_id_witness :
  let w := Fixture.world ∅ [Fixture.header; Fixture.exercise] in
  fst (main w (initial_state None)) = Ok tt /\
  exit_status (fst (main w (initial_state None))) = 0 /\
  snd (main w (initial_state None))
  = mk_State None
      [Log ERROR (Text "CALENDAR_ID is not set in the environment variables")].
Proof.
  intros w. apply (main_without_calendar_id w None). left. reflexivity.
Defined.

(** C7 as the specification words it fails: with no calendar identifier in
    the environment the run does not end in an error of any kind. *)
Lemma missing_calendar_id_is_not_an_error :
  getenv (Fixture.world ∅ [Fixture.header; Fixture.exercise]) "CALENDAR_ID" = None /\
  ~ exists e : exn,
      fst (main (Fixture.world ∅ [Fixture.header; Fixture.exercise])
             (initial_state None)) = Raise e.
Proof.
  split; [reflexivity|]. intros [e H]. vm_compute in H. discriminate.
Qed.

(** C8.  When the calendar identifier is missing (or empty), the run makes
    no network call: no token refresh, no interactive grant, no insert; the
    token file is left as it was. *)
Theorem no_network_without_calendar_id (w : World) (tok : option token_file) :
  str_truthy (getenv w "CALENDAR_ID") = false ->
  List.filter is_network (trace (snd (main w (initial_state tok)))) = [] /\
  token_json (snd (main w (initial_state tok))) = tok.
Proof.
  intros H. rewrite (main_guard w (initial_state tok) H). split; reflexivity.
Qed.

Lemma no_network_without_calendar_id_witness :
  let w := Fixture.world ∅ [Fixture.header; Fixture.exercise] in
  let tok := Some (AuthorizedUser Fixture.stale) in
  List.filter is_network (trace (snd (main w (initial_state tok)))) = [] /\
  token_json (snd (main w (initial_state tok))) = tok.
Proof.
  intros w tok. apply (no_network_without_calendar_id w tok). reflexivity.
Defined.

(** C10.  [main] never lets an exception out: whatever the world answers,
    it returns normally, the exit status is 0, and when the guarded block
    raised, the run's trace is that of the block followed by one error line
    carrying the exception. *)
Theorem main_never_raises (w : World) (s : State) :
  fst (main w s) = Ok tt /\
  exit_status (fst (main w s)) = 0 /\
  trace (snd (main w s))
  = (trace (snd (main_try w s))
     ++ match fst (main_try w s) with
        | Ok _ => []
        | Raise e => [Log ERROR (RunError e)]
        end)%list.
Proof.
  unfold main, try_except.
  destruct (main_try w s) as [[[]|e] s']; simpl.
  - rewrite app_nil_r. auto.
  - rewrite isinstance_Exception_all. simpl. auto.
Qed.

(** Two fatal errors of the specification, caught by [main]: the consent
    flow fails; a row does not parse. *)
Example main_catches_grant_failure :
  let w := Fixture.world_denied [Fixture.header; Fixture.exercise] in
  fst (main_try w (initial_state None)) = Raise (OtherError "AccessDeniedError") /\
  fst (main w (initial_state None)) = Ok tt /\
  inserted (trace (snd (main w (initial_state None)))) = [].
Proof. vm_compute. auto. Qed.

Example main_catches_parse_failure :
  let w := Fixture.world Fixture.with_calendar [Fixture.header; Fixture.day_first] in
  fst (main_try w (initial_state None))
  = Raise (ValueError "time data does not match format") /\
  fst (main w (initial_state None)) = Ok tt /\
  inserted (trace (snd (main w (initial_state None)))) = [].
Proof. vm_compute. auto. Qed.

(** ** The reader and the import loop *)

Lemma inserted_app (a b : list effect) :
  inserted (a ++ b) = (inserted a ++ inserted b)%list.
Proof. unfold inserted. apply omap_app. Qed.

Lemma state_eta (s : State) : mk_State (token_json s) (trace s) = s.
Proof. destruct s; reflexivity. Qed.

Lemma restval_lookup (l : list string) (d : gmap string (option string))
    (k : string) (v : option string) :
  foldl (fun d k => <[k := None]> d) d l !! k = Some v ->
  v = None \/ d !! k = Some v.
Proof.
  revert d. induction l as [|x l IH]; intros d H; simpl in H.
  - right. exact H.
  - apply IH in H. destruct H as [H|H]; [left; exact H|].
    destruct (decide (x = k)) as [->|Hne].
    + rewrite lookup_insert_eq in H. left. congruence.
    + rewrite lookup_insert_ne in H by exact Hne. right. exact H.
Qed.

(** The row made from a blank record has [None] in every column. *)
Lemma getitem_blank (hdr : Csv.record) (k : string) (v : option string) :
  Csv.getitem (Csv.make_row hdr []) k = Ok v -> v = None.
Proof.
  unfold Csv.getitem, Csv.make_row.
  replace (length hdr <? length (@nil string))%nat with false
    by (symmetry; apply Nat.ltb_ge; simpl; lia).
  rewrite zip_with_nil_r. simpl. rewrite drop_0.
  destruct (_ !! k) as [v'|] eqn:E; [|discriminate].
  intros [= <-]. apply restval_lookup in E.
  destruct E as [E|E]; [exact E|]. rewrite lookup_empty in E. discriminate.
Qed.

(** No event is built from a blank record: its start text is [None None]. *)
Lemma build_event_blank (hdr : Csv.record) (ev : Event) :
  build_event (Csv.make_row hdr []) <> Ok ev.
Proof.
  intros H. apply build_event_Ok in H.
  destruct H as (sd & st & dt & ? & ? & ? & ? & ? & ? & H1 & H2 & H3 & _).
  apply getitem_blank in H1, H2. subst sd st.
  vm_compute in H3. discriminate.
Qed.

Lemma str_truthy_Some (cal : string) : cal <> "" -> str_truthy (Some cal) = true.
Proof.
  intros H. simpl. destruct (String.eqb_spec cal ""); [contradiction|reflexivity].
Qed.

(** The loop is the iteration of [DictReader.__next__]. *)
Lemma for_row_in_reader_next (w : World) (fns : list string) (cal : string)
    (l : list Csv.record) :
  for_row_in_reader w fns cal l
  = match Csv.next_record l with
    | None => ret tt
    | Some (r, t) =>
        process_row w cal (Csv.make_row fns r);; for_row_in_reader w fns cal t
    end.
Proof.
  induction l as [|r t IH]; simpl; [reflexivity|].
  destruct r; [exact IH | reflexivity].
Qed.

Lemma fieldnames_open (hdr : Csv.record) (rows : list Csv.record) :
  Csv.fieldnames (Csv.open_reader (hdr :: rows))
  = (Some hdr, Csv.mk_reader (hdr :: rows) rows (Some hdr)).
Proof. reflexivity. Qed.

Lemma next_or_None_data (f : list Csv.record) (hdr : Csv.record)
    (rows : list Csv.record) :
  Csv.next_or_None (Csv.mk_reader f rows (Some hdr))
  = match Csv.next_record rows with
    | Some (r, t) => (Some (Csv.make_row hdr r), Csv.mk_reader f t (Some hdr))
    | None => (None, Csv.mk_reader f [] (Some hdr))
    end.
Proof.
  unfold Csv.next_or_None, Csv.next. simpl.
  destruct (Csv.next_record rows) as [[r t]|]; reflexivity.
Qed.

(** After [seek(0)] the header line comes out as a row, and the reader is
    left on the first data record. *)
Lemma next_after_seek0 (hdr : Csv.record) (rows u : list Csv.record) :
  hdr <> [] ->
  Csv.next (Csv.seek0 (Csv.mk_reader (hdr :: rows) u (Some hdr)))
  = (Ok (Csv.make_row hdr hdr), Csv.mk_reader (hdr :: rows) rows (Some hdr)).
Proof. intros H. destruct hdr; [contradiction|reflexivity]. Qed.

(** On a table with a header, the code before the loop leaves the reader on
    the first data record with the header as field names. *)
Lemma add_events_from_csv_table (w : World) (service : Service) (s : State)
    (hdr : Csv.record) (rows : list Csv.record) (cal : string) :
  calendar_events_csv w = Some (hdr :: rows) ->
  hdr <> [] ->
  getenv w "CALENDAR_ID" = Some cal ->
  cal <> "" ->
  add_events_from_csv w service s
  = for_row_in_reader w hdr cal rows
      (mk_State (token_json s) (trace s ++ prelude_trace hdr rows cal)).
Proof.
  intros Hfile Hhdr Hcal Hne.
  unfold add_events_from_csv, prelude_trace. rewrite Hfile, Hcal.
  rewrite (str_truthy_Some cal Hne).
  unfold bind at 1. unfold lift at 1.
  rewrite fieldnames_open, next_or_None_data.
  destruct (Csv.next_record rows) as [[r t]|];
    rewrite (next_after_seek0 hdr rows _ Hhdr);
    [destruct (Csv.row_truthy _)|];
    unfold bind, lift, logger, emit, ret; simpl;
    repeat rewrite <- app_assoc; reflexivity.
Qed.

(** One iteration on a valid row, the service answering as its interface
    says. *)
Lemma process_row_valid (w : World) (cal : string) (row : Csv.row)
    (ev : Event) (s : State) :
  api_answers w ->
  build_event row = Ok ev ->
  process_row w cal row s
  = (Ok tt,
     mk_State (token_json s)
       (trace s ++ loop_trace w cal (length (inserted (trace s))) [ev])).
Proof.
  intros Hapi Hev. unfold process_row, bind, lift, logger, emit, try_except,
    events_insert. rewrite Hev. simpl.
  rewrite inserted_app. simpl. rewrite app_nil_r.
  specialize (Hapi (length (inserted (trace s))) cal ev).
  destruct (execute_insert w _ cal ev) as [link|e]; simpl.
  - repeat rewrite <- app_assoc. reflexivity.
  - rewrite Hapi. simpl. repeat rewrite <- app_assoc. reflexivity.
Qed.

Lemma inserted_loop_trace (w : World) (cal : string) (k : nat) (evs : list Event) :
  inserted (loop_trace w cal k evs) = evs.
Proof.
  revert k. induction evs as [|ev t IH]; intros k; simpl; [reflexivity|].
  destruct (execute_insert w k cal ev); simpl; now rewrite IH.
Qed.

Lemma loop_trace_app (w : World) (cal : string) (k : nat) (a b : list Event) :
  loop_trace w cal k (a ++ b)
  = (loop_trace w cal k a ++ loop_trace w cal (k + length a) b)%list.
Proof.
  revert k. induction a as [|ev t IH]; intros k; simpl.
  - now rewrite Nat.add_0_r.
  - rewrite IH. now replace (S k + length t)%nat with (k + S (length t))%nat by lia.
Qed.

(** The loop over valid rows followed by anything else: the valid rows are
    submitted one after the other and the loop goes on with the rest. *)
Lemma for_row_in_reader_app (w : World) (hdr : Csv.record) (cal : string)
    (pre : list Csv.record) (evs : list Event) (rest : list Csv.record) :
  api_answers w ->
  row_events hdr pre evs ->
  forall s,
    for_row_in_reader w hdr cal (pre ++ rest) s
    = for_row_in_reader w hdr cal rest
        (mk_State (token_json s)
           (trace s ++ loop_trace w cal (length (inserted (trace s))) evs)).
Proof.
  intros Hapi Hrows. induction Hrows as [|r ev pre evs Hr Hrows IH]; intros s.
  - simpl. now rewrite app_nil_r, state_eta.
  - destruct r as [|f fs]; [exfalso; exact (build_event_blank hdr ev Hr)|].
    change (for_row_in_reader w hdr cal (((f :: fs) :: pre) ++ rest) s)
      with ((process_row w cal (Csv.make_row hdr (f :: fs));;
             for_row_in_reader w hdr cal (pre ++ rest)) s).
    unfold bind at 1. rewrite (process_row_valid w cal _ ev s Hapi Hr).
    rewrite IH. cbn [token_json trace]. f_equal. f_equal.
    rewrite <- app_assoc. f_equal.
    rewrite inserted_app, inserted_loop_trace, length_app. cbn [length].
    change (ev :: evs) with ([ev] ++ evs)%list.
    rewrite loop_trace_app. cbn [length]. reflexivity.
Qed.

Lemma inserted_prelude_trace (hdr : Csv.record) (rows : list Csv.record)
    (cal : string) :
  inserted (prelude_trace hdr rows cal) = [].
Proof.
  unfold prelude_trace.
  destruct (Csv.next_record rows) as [[r t]|]; [destruct (Csv.row_truthy _)|];
    reflexivity.
Qed.

(** The whole import of a table of valid rows. *)
Lemma add_events_from_csv_valid (w : World) (service : Service) (s : State)
    (hdr : Csv.record) (rows : list Csv.record) (evs : list Event)
    (cal : string) :
  calendar_events_csv w = Some (hdr :: rows) ->
  hdr <> [] ->
  getenv w "CALENDAR_ID" = Some cal ->
  cal <> "" ->
  api_answers w ->
  row_events hdr rows evs ->
  add_events_from_csv w service s
  = (Ok tt,
     mk_State (token_json s)
       ((trace s ++ prelude_trace hdr rows cal)
        ++ loop_trace w cal (length (inserted (trace s))) evs)).
Proof.
  intros Hfile Hhdr Hcal Hne Hapi Hrows.
  rewrite (add_events_from_csv_table w service s hdr rows cal Hfile Hhdr Hcal Hne).
  pose proof (for_row_in_reader_app w hdr cal rows evs [] Hapi Hrows) as Hloop.
  rewrite app_nil_r in Hloop. rewrite Hloop.
  cbn [for_row_in_reader ret trace token_json].
  now rewrite inserted_app, inserted_prelude_trace, app_nil_r.
Qed.

(** ** Submission order *)

(** C5.  For a table of N valid data rows under its header, with the
    calendar identifier set and the service answering as its interface
    says, the import returns normally and the insert calls it adds are
    exactly the events of the rows, one per row, in table order; equal rows
    are submitted as often as they occur. *)
Theorem one_insert_per_row_in_order (w : World) (service : Service) (s : State)
    (hdr : Csv.record) (rows : list Csv.record) (evs : list Event)
    (cal : string) :
  calendar_events_csv w = Some (hdr :: rows) ->
  hdr <> [] ->
  getenv w "CALENDAR_ID" = Some cal ->
  cal <> "" ->
  api_answers w ->
  row_events hdr rows evs ->
  fst (add_events_from_csv w service s) = Ok tt /\
  inserted (trace (snd (add_events_from_csv w service s)))
  = (inserted (trace s) ++ evs)%list /\
  length evs = length rows.
Proof.
  intros Hfile Hhdr Hcal Hne Hapi Hrows.
  rewrite (add_events_from_csv_valid w service s hdr rows evs cal
             Hfile Hhdr Hcal Hne Hapi Hrows).
  cbn [fst snd trace]. repeat rewrite inserted_app.
  rewrite inserted_prelude_trace, inserted_loop_trace, app_nil_r.
  repeat split. symmetry. exact (Forall2_length _ _ _ Hrows).
Qed.

Lemma one_insert_per_row_in_order_witness :
  let table := [Fixture.header; Fixture.exercise; Fixture.reading;
                Fixture.exercise; Fixture.lunch] in
  let evs := [Fixture.exercise_event; Fixture.reading_event;
              Fixture.exercise_event; Fixture.lunch_event] in
  let w := Fixture.world_rejecting 1 table in
  let service := mk_Service Fixture.fresh in
  fst (add_events_from_csv w service (initial_state None)) = Ok tt /\
  inserted (trace (snd (add_events_from_csv w service (initial_state None))))
  = ([] ++ evs)%list /\
  length evs = 4%nat.
Proof.
  intros table evs w service.
  apply (one_insert_per_row_in_order w service (initial_state None)
           Fixture.header (tail table) evs "primary").
  - reflexivity.
  - discriminate.
  - reflexivity.
  - discriminate.
  - intros k cal ev. simpl. destruct (k =? 1)%nat; reflexivity.
  - repeat constructor.
Defined.

(** ** Rows that do not parse *)

Lemma strptime_ValueError (text : string) (e : exn) :
  Strptime.strptime text = Raise e -> exists msg, e = ValueError msg.
Proof.
  unfold Strptime.strptime.
  destruct (Strptime.format_regex text) as [|[dt rest] l].
  - intros [= <-]. eauto.
  - destruct (negb _); [intros [= <-]; eauto|].
    destruct (Datetime.check_fields dt); [discriminate|intros [= <-]; eauto].
Qed.

(** A row with its four date and time fields, one pair of which does not
    parse, makes [build_event] raise [ValueError]. *)
Lemma build_event_unparsable (row : Csv.row) (sd st ed et : option string) :
  Csv.getitem row "Start Date" = Ok sd ->
  Csv.getitem row "Start Time" = Ok st ->
  Csv.getitem row "End Date" = Ok ed ->
  Csv.getitem row "End Time" = Ok et ->
  parses (format_field sd +:+ " " +:+ format_field st) = false
  \/ parses (format_field ed +:+ " " +:+ format_field et) = false ->
  exists msg, build_event row = Raise (ValueError msg).
Proof.
  intros H1 H2 H3 H4 Hbad. unfold build_event, result_bind, parses in *.
  rewrite H1, H2.
  destruct (Strptime.strptime (format_field sd +:+ _)) as [dt|e] eqn:Es.
  - rewrite H3, H4.
    destruct (Strptime.strptime (format_field ed +:+ _)) as [dt'|e] eqn:Ee.
    + destruct Hbad; discriminate.
    + destruct (strptime_ValueError _ _ Ee) as [msg ->]. eauto.
  - destruct (strptime_ValueError _ _ Es) as [msg ->]. eauto.
Qed.

(** C3.  In a table whose rows before row k are valid and whose row k has a
    start or end date and time that does not parse, the import raises the
    parse error out of the loop, the rows before k have been submitted in
    order, and no later row is submitted. *)
Theorem import_aborts_at_unparsable_row (w : World) (service : Service)
    (s : State) (hdr : Csv.record) (pre : list Csv.record) (bad : Csv.record)
    (post : list Csv.record) (evs : list Event) (cal : string)
    (sd st ed et : option string) :
  calendar_events_csv w = Some (hdr :: pre ++ bad :: post) ->
  hdr <> [] ->
  getenv w "CALENDAR_ID" = Some cal ->
  cal <> "" ->
  api_answers w ->
  row_events hdr pre evs ->
  bad <> [] ->
  Csv.getitem (Csv.make_row hdr bad) "Start Date" = Ok sd ->
  Csv.getitem (Csv.make_row hdr bad) "Start Time" = Ok st ->
  Csv.getitem (Csv.make_row hdr bad) "End Date" = Ok ed ->
  Csv.getitem (Csv.make_row hdr bad) "End Time" = Ok et ->
  parses (format_field sd +:+ " " +:+ format_field st) = false
  \/ parses (format_field ed +:+ " " +:+ format_field et) = false ->
  (exists msg, fst (add_events_from_csv w service s) = Raise (ValueError msg)) /\
  inserted (trace (snd (add_events_from_csv w service s)))
  = (inserted (trace s) ++ evs)%list.
Proof.
  intros Hfile Hhdr Hcal Hne Hapi Hrows Hbad H1 H2 H3 H4 Hparse.
  destruct (build_event_unparsable _ sd st ed et H1 H2 H3 H4 Hparse) as [msg Hev].
  rewrite (add_events_from_csv_table w service s hdr _ cal Hfile Hhdr Hcal Hne).
  rewrite (for_row_in_reader_app w hdr cal pre evs (bad :: post) Hapi Hrows).
  destruct bad as [|f fs]; [contradiction|].
  cbn [for_row_in_reader]. unfold bind at 1. unfold process_row, bind, lift.
  rewrite Hev. cbn [fst snd trace token_json]. split; [eauto|].
  repeat rewrite inserted_app.
  now rewrite inserted_prelude_trace, inserted_loop_trace, app_nil_r.
Qed.

Lemma import_aborts_at_unparsable_row_witness :
  let table := [Fixture.header; Fixture.exercise; Fixture.reading;
                Fixture.day_first; Fixture.lunch] in
  let w := Fixture.world Fixture.with_calendar table in
  let service := mk_Service Fixture.fresh in
  (exists msg,
     fst (add_events_from_csv w service (initial_state None))
     = Raise (ValueError msg)) /\
  inserted (trace (snd (add_events_from_csv w service (initial_state None))))
  = ([] ++ [Fixture.exercise_event; Fixture.reading_event])%list.
Proof.
  intros table w service.
  apply (import_aborts_at_unparsable_row w service (initial_state None)
           Fixture.header [Fixture.exercise; Fixture.reading] Fixture.day_first
           [Fixture.lunch] [Fixture.exercise_event; Fixture.reading_event]
           "primary" (Some "16/10/2024") (Some "09:00") (Some "2024-10-16")
           (Some "09:15")).
  - reflexivity.
  - discriminate.
  - reflexivity.
  - discriminate.
  - intros k cal ev. exact I.
  - repeat constructor.
  - discriminate.
  - reflexivity.
  - reflexivity.
  - reflexivity.
  - reflexivity.
  - left. reflexivity.
Defined.

(** ** Rows the service rejects *)

(** Each iteration logs exactly one of the two outcomes. *)
Lemma loop_trace_logs (w : World) (cal : string) (n : nat) (evs : list Event) :
  (length (List.filter is_created_log (loop_trace w cal n evs))
   + length (List.filter is_row_error_log (loop_trace w cal n evs)))%nat
  = length evs.
Proof.
  revert n. induction evs as [|ev t IH]; intros n; simpl; [reflexivity|].
  specialize (IH (S n)). destruct (execute_insert w n cal ev); simpl; lia.
Qed.

(** With one rejected call, number [k], the loop logs one row error when
    [k] is among its calls and none otherwise. *)
Lemma loop_trace_one_error (w : World) (cal : string) (k : nat) (status : Z)
    (evs : list Event) :
  (forall c ev, execute_insert w k c ev = Raise (HttpError status)) ->
  (forall i c ev, i <> k -> exists link, execute_insert w i c ev = Ok link) ->
  forall n,
    length (List.filter is_row_error_log (loop_trace w cal n evs))
    = if (n <=? k)%nat && (k <? n + length evs)%nat then 1%nat else 0%nat.
Proof.
  intros Hk Hother. induction evs as [|ev t IH]; intros n.
  - simpl. destruct (Nat.leb_spec n k), (Nat.ltb_spec k (n + 0)); simpl; lia.
  - cbn [loop_trace length]. destruct (Nat.eq_dec n k) as [->|Hne].
    + rewrite Hk. cbn [List.filter is_row_error_log length]. rewrite IH.
      destruct (Nat.leb_spec (S k) k), (Nat.leb_spec k k),
        (Nat.ltb_spec k (k + S (length t))), (Nat.ltb_spec k (S k + length t));
        simpl; lia.
    + destruct (Hother n cal ev Hne) as [link ->].
      cbn [List.filter is_row_error_log length]. rewrite IH.
      destruct (Nat.leb_spec (S n) k), (Nat.leb_spec n k),
        (Nat.ltb_spec k (n + S (length t))), (Nat.ltb_spec k (S n + length t));
        simpl; lia.
Qed.

Lemma loop_trace_error_logged (w : World) (cal : string) (k : nat) (e : exn)
    (evs : list Event) :
  (forall c ev, execute_insert w k c ev = Raise e) ->
  forall n, (n <= k < n + length evs)%nat ->
    In (Log ERROR (RowError e)) (loop_trace w cal n evs).
Proof.
  intros Hk. induction evs as [|ev t IH]; intros n Hn; simpl in *; [lia|].
  destruct (Nat.eq_dec n k) as [->|Hne].
  - rewrite Hk. auto.
  - right. right. right. apply IH. lia.
Qed.

Lemma filter_prelude_trace (hdr : Csv.record) (rows : list Csv.record)
    (cal : string) :
  List.filter is_created_log (prelude_trace hdr rows cal) = [] /\
  List.filter is_row_error_log (prelude_trace hdr rows cal) = [].
Proof.
  unfold prelude_trace.
  destruct (Csv.next_record rows) as [[r t]|]; [destruct (Csv.row_truthy _)|];
    split; reflexivity.
Qed.

(** C4.  In a table of valid rows where the service rejects the insert of
    one row, number [k], with an API error and accepts the others, the
    import returns normally; what it adds to the trace contains an insert
    call for every row in table order, the rows after the rejected one
    included, the error of the rejected row logged once, and one success
    line for each other row. *)
Theorem rejected_row_does_not_stop_import (w : World) (service : Service)
    (s : State) (hdr : Csv.record) (rows : list Csv.record)
    (evs : list Event) (cal : string) (k : nat) (status : Z) :
  calendar_events_csv w = Some (hdr :: rows) ->
  hdr <> [] ->
  getenv w "CALENDAR_ID" = Some cal ->
  cal <> "" ->
  row_events hdr rows evs ->
  inserted (trace s) = [] ->
  (k < length rows)%nat ->
  (forall c ev, execute_insert w k c ev = Raise (HttpError status)) ->
  (forall i c ev, i <> k -> exists link, execute_insert w i c ev = Ok link) ->
  fst (add_events_from_csv w service s) = Ok tt /\
  exists added,
    trace (snd (add_events_from_csv w service s)) = (trace s ++ added)%list /\
    inserted added = evs /\
    In (Log ERROR (RowError (HttpError status))) added /\
    length (List.filter is_row_error_log added) = 1%nat /\
    length (List.filter is_created_log added) = (length rows - 1)%nat.
Proof.
  intros Hfile Hhdr Hcal Hne Hrows Hs Hk Hrej Hacc.
  assert (Hapi : api_answers w).
  { intros i c ev. destruct (Nat.eq_dec i k) as [->|Hi].
    - now rewrite Hrej.
    - now destruct (Hacc i c ev Hi) as [link ->]. }
  assert (Hlen : length evs = length rows)
    by (symmetry; exact (Forall2_length _ _ _ Hrows)).
  rewrite (add_events_from_csv_valid w service s hdr rows evs cal
             Hfile Hhdr Hcal Hne Hapi Hrows).
  rewrite Hs. cbn [fst snd trace length]. split; [reflexivity|].
  exists (prelude_trace hdr rows cal ++ loop_trace w cal 0 evs)%list.
  destruct (filter_prelude_trace hdr rows cal) as [Hc He].
  pose proof (loop_trace_logs w cal 0 evs) as Hsum.
  pose proof (loop_trace_one_error w cal k status evs Hrej Hacc 0%nat) as Hone.
  replace ((0 <=? k)%nat && (k <? 0 + length evs)%nat) with true in Hone
    by (symmetry; apply andb_true_intro; split;
        [apply Nat.leb_le | apply Nat.ltb_lt]; lia).
  repeat split.
  - now rewrite app_assoc.
  - now rewrite inserted_app, inserted_prelude_trace, inserted_loop_trace.
  - apply in_or_app. right.
    apply (loop_trace_error_logged w cal k (HttpError status) evs Hrej). lia.
  - now rewrite List.filter_app, He, length_app.
  - rewrite List.filter_app, Hc, length_app. simpl. lia.
Qed.

(** Rows 1, 2 and 4 accepted, row 3 rejected. *)
Lemma rejected_row_does_not_stop_import_witness :
  let table := [Fixture.header; Fixture.exercise; Fixture.reading;
                Fixture.exercise; Fixture.lunch] in
  let evs := [Fixture.exercise_event; Fixture.reading_event;
              Fixture.exercise_event; Fixture.lunch_event] in
  let w := Fixture.world_rejecting 2 table in
  let service := mk_Service Fixture.fresh in
  let s := initial_state None in
  fst (add_events_from_csv w service s) = Ok tt /\
  exists added,
    trace (snd (add_events_from_csv w service s)) = (trace s ++ added)%list /\
    inserted added = evs /\
    In (Log ERROR (RowError (HttpError 400))) added /\
    length (List.filter is_row_error_log added) = 1%nat /\
    length (List.filter is_created_log added) = (4 - 1)%nat.
Proof.
  intros table evs w service s.
  apply (rejected_row_does_not_stop_import w service s Fixture.header
           (tail table) evs "primary" 2 400).
  - reflexivity.
  - discriminate.
  - reflexivity.
  - discriminate.
  - repeat constructor.
  - reflexivity.
  - simpl. lia.
  - reflexivity.
  - intros i c ev Hi. simpl. destruct (Nat.eqb_spec i 2); [contradiction|eauto].
Defined.

(** ** The documented scenario *)

(** C6, as the code has it.  The row
    [Exercise,2024-10-14,07:00,2024-10-14,08:00,Workout,Gym] under the
    documented header gives the event with summary [Exercise], location
    [Gym], description [Workout], start [2024-10-14T07:00:00] and end
    [2024-10-14T08:00:00] in [America/New_York], and the one-element
    recurrence list [RRULE:FREQ=WEEKLY;COUNT=52;BYDAY=MO]; importing the
    table made of that row submits exactly this event, whatever the service
    answers. *)
Theorem exercise_row_event :
  build_event (Csv.make_row Fixture.header Fixture.exercise)
  = Ok Fixture.exercise_event /\
  forall (w : World) (service : Service) (s : State) (cal : string),
    calendar_events_csv w = Some [Fixture.header; Fixture.exercise] ->
    getenv w "CALENDAR_ID" = Some cal ->
    cal <> "" ->
    inserted (trace (snd (add_events_from_csv w service s)))
    = (inserted (trace s) ++ [Fixture.exercise_event])%list.
Proof.
  split; [reflexivity|]. intros w service s cal Hfile Hcal Hne.
  rewrite (add_events_from_csv_table w service s Fixture.header
             [Fixture.exercise] cal Hfile ltac:(discriminate) Hcal Hne).
  cbn [for_row_in_reader Fixture.exercise].
  unfold bind at 1. unfold process_row, bind, lift, logger, emit, try_except,
    events_insert.
  change (build_event (Csv.make_row Fixture.header _))
    with (Ok Fixture.exercise_event).
  cbn [fst snd trace token_json].
  destruct (execute_insert w _ cal Fixture.exercise_event) as [link|e];
    [|destruct (isinstance_HttpError e)];
    cbn [fst snd trace token_json ret];
    repeat rewrite inserted_app;
    rewrite inserted_prelude_trace; simpl; now repeat rewrite app_nil_r.
Qed.

Lemma exercise_row_event_witness :
  let w := Fixture.world Fixture.with_calendar [Fixture.header; Fixture.exercise] in
  inserted (trace (snd (add_events_from_csv w (mk_Service Fixture.fresh)
                          (initial_state None))))
  = ([] ++ [Fixture.exercise_event])%list.
Proof.
  intros w.
  apply (proj2 exercise_row_event w (mk_Service Fixture.fresh)
           (initial_state None) "primary").
  - reflexivity.
  - reflexivity.
  - discriminate.
Defined.

(** C6 as the specification words it fails: the event built from the row is
    not the one whose recurrence is the bare rule
    [FREQ=WEEKLY;COUNT=52;BYDAY=MO], and that string is not in its
    recurrence list. *)
Lemma exercise_row_recurrence_is_not_bare :
  build_event (Csv.make_row Fixture.header Fixture.exercise)
  <> Ok Fixture.exercise_event_bare_rule /\
  forall ev,
    build_event (Csv.make_row Fixture.header Fixture.exercise) = Ok ev ->
    ~ In "FREQ=WEEKLY;COUNT=52;BYDAY=MO" (recurrence ev).
Proof.
  split.
  - vm_compute. discriminate.
  - intros ev H. vm_compute in H. injection H as <-.
    intros [H|[]]. discriminate.
Qed.

(** ** Authentication *)

Ltac run_auth :=
  unfold authenticate_google_calendar, obtain_credentials, refresh,
    new_authentication_flow, write_token_json, to_json, bind, lift, logger,
    emit, ret;
  cbn [token_json trace fst snd negb andb].

(** A loaded credential that is valid is used as it is. *)
Lemma authenticate_valid (w : World) (s : State) (f : token_file)
    (c : Credentials) :
  token_json s = Some f ->
  from_authorized_user_file w f = Ok c ->
  valid w c = true ->
  authenticate_google_calendar w s
  = (build w c,
     mk_State (Some f)
       (trace s ++ [Log DEBUG (Text "Found existing token.json file");
                    Log DEBUG (Text "Building Google Calendar service")])).
Proof.
  intros Hs Hf Hv. run_auth. rewrite Hs. run_auth. rewrite Hf, Hv. run_auth.
  now rewrite <- app_assoc.
Qed.

(** A loaded credential that is expired and has a refresh token is
    refreshed; the answer of the token endpoint decides the rest. *)
Lemma authenticate_refresh (w : World) (s : State) (f : token_file)
    (c : Credentials) :
  token_json s = Some f ->
  from_authorized_user_file w f = Ok c ->
  expired w c = true ->
  str_truthy (refresh_token c) = true ->
  authenticate_google_calendar w s
  = match refresh_grant w c with
    | Ok c' =>
        (build w c',
         mk_State (Some (AuthorizedUser c'))
           (trace s ++ [Log DEBUG (Text "Found existing token.json file");
                        Log DEBUG (Text "Credentials are missing or invalid");
                        Log DEBUG (Text "Attempting to refresh expired credentials");
                        TokenRefresh (Ok c');
                        Log DEBUG (Text "Saving credentials to token.json");
                        WriteToken (AuthorizedUser c');
                        Log DEBUG (Text "Building Google Calendar service")]))
    | Raise e =>
        (Raise e,
         mk_State (Some f)
           (trace s ++ [Log DEBUG (Text "Found existing token.json file");
                        Log DEBUG (Text "Credentials are missing or invalid");
                        Log DEBUG (Text "Attempting to refresh expired credentials");
                        TokenRefresh (Raise e)]))
    end.
Proof.
  intros Hs Hf He Hr. run_auth. rewrite Hs. run_auth. rewrite Hf.
  unfold valid. rewrite He, Hr, andb_false_r. run_auth.
  destruct (refresh_grant w c) as [c'|e]; run_auth;
    repeat rewrite <- app_assoc; reflexivity.
Qed.

(** The run when the refresh request fails. *)
Lemma main_refresh_failure (w : World) (s : State) (f : token_file)
    (c : Credentials) (e : exn) :
  token_json s = Some f ->
  from_authorized_user_file w f = Ok c ->
  expired w c = true ->
  str_truthy (refresh_token c) = true ->
  refresh_grant w c = Raise e ->
  str_truthy (getenv w "CALENDAR_ID") = true ->
  main w s
  = (Ok tt,
     mk_State (Some f)
       (trace s ++ [Log INFO (Text "Starting authentication process");
                    Log DEBUG (Text "Found existing token.json file");
                    Log DEBUG (Text "Credentials are missing or invalid");
                    Log DEBUG (Text "Attempting to refresh expired credentials");
                    TokenRefresh (Raise e);
                    Log ERROR (RunError e)])).
Proof.
  intros Hs Hf He Hr Hfail Hcal. unfold main, try_except, main_try.
  rewrite Hcal. cbn [negb]. unfold bind at 1. unfold logger at 1, emit at 1.
  unfold bind at 1.
  match goal with
  | |- context [authenticate_google_calendar w ?s1] =>
      rewrite (authenticate_refresh w s1 f c Hs Hf He Hr), Hfail
  end.
  rewrite isinstance_Exception_all. unfold logger, emit.
  cbn [token_json trace]. now repeat rewrite <- app_assoc.
Qed.

(** C2, as the code has it.  When the loaded credential is expired and has
    a refresh token, authentication makes exactly one refresh request and
    starts no interactive flow.  If the request fails, its error leaves
    authentication, [token.json] is left as it was, and [main] logs the
    error and ends the run with no insert call. *)
Theorem refresh_once_and_failure_ends_run (w : World) (f : token_file)
    (c : Credentials) :
  from_authorized_user_file w f = Ok c ->
  expired w c = true ->
  str_truthy (refresh_token c) = true ->
  let s := initial_state (Some f) in
  length (List.filter is_refresh (trace (snd (authenticate_google_calendar w s))))
  = 1%nat /\
  List.filter is_interactive (trace (snd (authenticate_google_calendar w s))) = [] /\
  forall e, refresh_grant w c = Raise e ->
    fst (authenticate_google_calendar w s) = Raise e /\
    token_json (snd (authenticate_google_calendar w s)) = Some f /\
    (str_truthy (getenv w "CALENDAR_ID") = true ->
     fst (main w s) = Ok tt /\
     List.filter is_interactive (trace (snd (main w s))) = [] /\
     inserted (trace (snd (main w s))) = [] /\
     In (Log ERROR (RunError e)) (trace (snd (main w s)))).
Proof.
  intros Hf He Hr s.
  pose proof (authenticate_refresh w s f c eq_refl Hf He Hr) as Hauth.
  split; [|split].
  - rewrite Hauth. destruct (refresh_grant w c); reflexivity.
  - rewrite Hauth. destruct (refresh_grant w c); reflexivity.
  - intros e Hfail. rewrite Hauth, Hfail. split; [reflexivity|].
    split; [reflexivity|]. intros Hcal.
    rewrite (main_refresh_failure w s f c e eq_refl Hf He Hr Hfail Hcal).
    cbn. auto 10.
Qed.

Lemma refresh_once_and_failure_ends_run_witness :
  let w := Fixture.world_revoked [Fixture.header; Fixture.exercise] in
  let s := initial_state (Some (AuthorizedUser Fixture.stale)) in
  fst (authenticate_google_calendar w s) = Raise (RefreshError "invalid_grant") /\
  token_json (snd (authenticate_google_calendar w s))
  = Some (AuthorizedUser Fixture.stale) /\
  fst (main w s) = Ok tt /\
  List.filter is_interactive (trace (snd (main w s))) = [] /\
  inserted (trace (snd (main w s))) = [] /\
  In (Log ERROR (RunError (RefreshError "invalid_grant"))) (trace (snd (main w s))).
Proof.
  intros w s.
  destruct (proj2 (proj2 (refresh_once_and_failure_ends_run w
                            (AuthorizedUser Fixture.stale) Fixture.stale
                            eq_refl eq_refl eq_refl))
              (RefreshError "invalid_grant") eq_refl) as (H1 & H2 & H3).
  split; [exact H1|]. split; [exact H2|]. apply H3. reflexivity.
Defined.

(** A loaded credential without an access token whose expiry lies ahead is
    invalid without being expired: it is not refreshed although it has a
    refresh token, and the interactive flow runs. *)
Example unexpired_invalid_token_is_not_refreshed :
  let w := Fixture.world Fixture.with_calendar [Fixture.header] in
  let c := mk_Credentials None (Some 7200) (Some "1//refresh") in
  let s' := snd (authenticate_google_calendar w
                   (initial_state (Some (AuthorizedUser c)))) in
  valid w c = false /\
  str_truthy (refresh_token c) = true /\
  List.filter is_refresh (trace s') = [] /\
  List.filter is_interactive (trace s') = [InteractiveGrant (Ok Fixture.fresh)].
Proof. repeat split. Qed.

(** C2 as the specification words it fails: the loaded token is invalid, a
    refresh token is present and the refresh is rejected, yet no
    interactive flow is started; authentication raises the refresh error
    and the run ends without an insert call. *)
Lemma failed_refresh_does_not_reauthorize :
  let w := Fixture.world_revoked [Fixture.header; Fixture.exercise] in
  let s := initial_state (Some (AuthorizedUser Fixture.stale)) in
  from_authorized_user_file w (AuthorizedUser Fixture.stale) = Ok Fixture.stale /\
  valid w Fixture.stale = false /\
  str_truthy (refresh_token Fixture.stale) = true /\
  refresh_grant w Fixture.stale = Raise (RefreshError "invalid_grant") /\
  fst (authenticate_google_calendar w s) = Raise (RefreshError "invalid_grant") /\
  ~ (exists a, In (InteractiveGrant a) (trace (snd (main w s)))) /\
  inserted (trace (snd (main w s))) = [].
Proof.
  repeat split.
  intros [a H]. vm_compute in H.
  repeat (destruct H as [H|H]; [discriminate|]). exact H.
Qed.

(** ** The token file *)

Lemma replacements_app (a b : list effect) :
  replacements (a ++ b) = (replacements a ++ replacements b)%list.
Proof. unfold replacements. apply omap_app. Qed.

Lemma writes_app (a b : list effect) :
  writes (a ++ b) = (writes a ++ writes b)%list.
Proof. unfold writes. apply omap_app. Qed.

(** What authentication does to [token.json], for a run that starts with
    trace [t]: it adds one write per replacement, of the replacing
    credential, and the file ends holding the last thing written. *)
Lemma authenticate_writes (w : World) (s : State) :
  let s' := snd (authenticate_google_calendar w s) in
  exists added,
    trace s' = (trace s ++ added)%list /\
    writes added = map (to_json) (replacements added) /\
    (length (replacements added) <= 1)%nat /\
    token_json s' = match replacements added with
                    | [] => token_json s
                    | c :: _ => Some (to_json c)
                    end.
Proof.
  destruct s as [tok t]. run_auth.
  destruct tok as [[c|]|]; run_auth;
    repeat (first
      [ progress run_auth
      | match goal with
        | |- context [if ?b then _ else _] => destruct b
        | |- context [match ?r with Ok _ => _ | Raise _ => _ end] => destruct r
        end ]);
    eexists; (split; [repeat rewrite <- app_assoc; reflexivity|]);
    simpl; auto.
Qed.

(** *** The import leaves the credential alone *)

Lemma adds_quietly_refl (s : State) : adds_quietly s s.
Proof. exists []. now rewrite app_nil_r, state_eta. Qed.

Lemma adds_quietly_trans (s1 s2 s3 : State) :
  adds_quietly s1 s2 -> adds_quietly s2 s3 -> adds_quietly s1 s3.
Proof.
  intros (a & -> & Ha1 & Ha2) (b & -> & Hb1 & Hb2).
  exists (a ++ b)%list. cbn [token_json trace].
  rewrite replacements_app, writes_app, Ha1, Ha2, Hb1, Hb2, app_assoc.
  repeat split.
Qed.

Section Quiet.
Context {A B : Type}.

Lemma quiet_ret (a : A) : quiet (ret a).
Proof. intros s. apply adds_quietly_refl. Qed.

Lemma quiet_raise (e : exn) : quiet (@raise A e).
Proof. intros s. apply adds_quietly_refl. Qed.

Lemma quiet_lift (r : result A) : quiet (lift r).
Proof. intros s. apply adds_quietly_refl. Qed.

Lemma quiet_bind (m : M A) (k : A -> M B) :
  quiet m -> (forall a, quiet (k a)) -> quiet (bind m k).
Proof.
  intros Hm Hk s. unfold bind. specialize (Hm s).
  destruct (m s) as [[a|e] s1]; cbn [snd] in *; [|exact Hm].
  exact (adds_quietly_trans _ _ _ Hm (Hk a s1)).
Qed.

Lemma quiet_try_except (m : M A) (catches : exn -> bool) (h : exn -> M A) :
  quiet m -> (forall e, quiet (h e)) -> quiet (try_except m catches h).
Proof.
  intros Hm Hh s. unfold try_except. specialize (Hm s).
  destruct (m s) as [[a|e] s1]; cbn [snd] in *; [exact Hm|].
  destruct (catches e); [|exact Hm].
  exact (adds_quietly_trans _ _ _ Hm (Hh e s1)).
Qed.

End Quiet.

Lemma quiet_emit (e : effect) :
  replacements [e] = [] -> writes [e] = [] -> quiet (emit e).
Proof. intros H1 H2 s. exists [e]. repeat split; assumption. Qed.

Lemma quiet_logger (lvl : level) (msg : message) : quiet (logger lvl msg).
Proof. apply quiet_emit; reflexivity. Qed.

Lemma quiet_events_insert (w : World) (cal : string) (ev : Event) :
  quiet (events_insert w cal ev).
Proof. intros s. unfold events_insert. eexists. repeat split. Qed.

Lemma quiet_process_row (w : World) (cal : string) (row : Csv.row) :
  quiet (process_row w cal row).
Proof.
  unfold process_row.
  apply quiet_bind; [apply quiet_lift|]. intros ev.
  apply quiet_bind; [apply quiet_logger|]. intros _.
  apply quiet_try_except; [|intros e; apply quiet_logger].
  apply quiet_bind; [apply quiet_events_insert|]. intros link.
  apply quiet_logger.
Qed.

Lemma quiet_for_row_in_reader (w : World) (fns : list string) (cal : string)
    (l : list Csv.record) :
  quiet (for_row_in_reader w fns cal l).
Proof.
  induction l as [|r t IH]; [apply quiet_ret|].
  destruct r as [|f fs]; [exact IH|].
  cbn [for_row_in_reader].
  apply quiet_bind; [apply quiet_process_row|]. intros _. exact IH.
Qed.

Lemma quiet_add_events_from_csv (w : World) (service : Service) :
  quiet (add_events_from_csv w service).
Proof.
  unfold add_events_from_csv.
  apply quiet_bind; [apply quiet_lift|]. intros file.
  destruct (Csv.fieldnames (Csv.open_reader file)) as [fns rd1].
  apply quiet_bind; [apply quiet_logger|]. intros _.
  destruct (Csv.next_or_None rd1) as [first rd2].
  apply quiet_bind.
  { destruct first as [r|]; [destruct (Csv.row_truthy r)|];
      try apply quiet_ret.
    apply quiet_bind; [apply quiet_logger|]. intros _.
    apply quiet_emit; reflexivity. }
  intros _. destruct (Csv.next (Csv.seek0 rd2)) as [header rd3].
  apply quiet_bind; [apply quiet_lift|]. intros _.
  apply quiet_bind; [apply quiet_logger|]. intros _.
  destruct (negb _); [apply quiet_raise | apply quiet_for_row_in_reader].
Qed.

(** After authentication, [main] leaves the credential alone. *)
Lemma main_after_authentication (w : World) (s : State) :
  str_truthy (getenv w "CALENDAR_ID") = true ->
  adds_quietly
    (snd (authenticate_google_calendar w
            (snd (logger INFO (Text "Starting authentication process") s))))
    (snd (main w s)).
Proof.
  intros Hcal. unfold main, try_except, main_try. rewrite Hcal. cbn [negb].
  unfold bind at 1.
  change (logger INFO (Text "Starting authentication process") s)
    with (Ok tt, snd (logger INFO (Text "Starting authentication process") s)).
  cbn iota. unfold bind at 1.
  destruct (authenticate_google_calendar w _) as [[service|e] s2]; cbn [snd].
  - pose proof (quiet_bind (logger INFO (Text "Authentication successful"))
                  (fun _ => add_events_from_csv w service)
                  (quiet_logger _ _)
                  (fun _ => quiet_add_events_from_csv w service) s2) as Hq.
    destruct (bind _ _ s2) as [[[]|e] s3]; cbn [snd] in *; [exact Hq|].
    rewrite isinstance_Exception_all.
    exact (adds_quietly_trans _ _ _ Hq (quiet_logger _ _ s3)).
  - rewrite isinstance_Exception_all. apply quiet_logger.
Qed.

(** C9.  In every run, [token.json] is written exactly when the credential
    in memory is replaced by a successful refresh or a successful
    interactive grant: there is one write per replacement (and at most one
    replacement), it writes the replacing credential, and the file then
    holds it; with no replacement the file is as it was.  When the loaded
    credential is valid there is no replacement and no write, so the file's
    content is left unchanged by the run. *)
Theorem token_file_written_iff_replaced (w : World) (tok : option token_file) :
  let s' := snd (main w (initial_state tok)) in
  writes (trace s') = map to_json (replacements (trace s')) /\
  (length (replacements (trace s')) <= 1)%nat /\
  token_json s' = match replacements (trace s') with
                  | [] => tok
                  | c :: _ => Some (to_json c)
                  end /\
  forall f c,
    tok = Some f ->
    from_authorized_user_file w f = Ok c ->
    valid w c = true ->
    replacements (trace s') = [] /\ writes (trace s') = [] /\ token_json s' = tok.
Proof.
  intros s'. subst s'.
  destruct (str_truthy (getenv w "CALENDAR_ID")) eqn:Hcal.
  - destruct (main_after_authentication w (initial_state tok) Hcal)
      as (post & Hs' & Hp1 & Hp2).
    set (s1 := snd (logger INFO (Text "Starting authentication process")
                      (initial_state tok))) in *.
    destruct (authenticate_writes w s1) as (added & Ht & Hw & Hl & Hf).
    assert (Hrep : replacements (trace (snd (main w (initial_state tok))))
                   = replacements added).
    { rewrite Hs'. cbn [trace]. rewrite Ht.
      now rewrite !replacements_app, Hp1, app_nil_r. }
    assert (Hwr : writes (trace (snd (main w (initial_state tok))))
                  = writes added).
    { rewrite Hs'. cbn [trace]. rewrite Ht.
      now rewrite !writes_app, Hp2, app_nil_r. }
    assert (Htok : token_json (snd (main w (initial_state tok)))
                   = token_json (snd (authenticate_google_calendar w s1)))
      by now rewrite Hs'.
    rewrite Hrep, Hwr, Htok. split; [exact Hw|]. split; [exact Hl|].
    split; [exact Hf|]. intros f c -> Hload Hvalid.
    rewrite (authenticate_valid w s1 f c eq_refl Hload Hvalid) in Ht |- *.
    cbn [snd trace token_json] in Ht |- *.
    apply app_inv_head in Ht. subst added. repeat split.
  - rewrite (main_guard w (initial_state tok) Hcal). cbn. repeat split; auto.
Qed.

Lemma token_file_written_iff_replaced_witness :
  let w := Fixture.world Fixture.with_calendar [Fixture.header; Fixture.exercise] in
  let tok := Some (AuthorizedUser Fixture.fresh) in
  let s' := snd (main w (initial_state tok)) in
  replacements (trace s') = [] /\ writes (trace s') = [] /\ token_json s' = tok.
Proof.
  intros w tok s'.
  apply (proj2 (proj2 (proj2 (token_file_written_iff_replaced w tok)))
           (AuthorizedUser Fixture.fresh) Fixture.fresh);
    reflexivity.
Defined.

(** The three other runs: a refresh that succeeds, a first grant, and a
    refresh that is rejected. *)
Example token_file_after_refresh :
  let w := Fixture.world Fixture.with_calendar [Fixture.header] in
  let s' := snd (main w (initial_state (Some (AuthorizedUser Fixture.stale)))) in
  writes (trace s')
  = [AuthorizedUser (mk_Credentials (Some "ya29.new") (Some 4600) (Some "1//refresh"))] /\
  token_json s'
  = Some (AuthorizedUser (mk_Credentials (Some "ya29.new") (Some 4600) (Some "1//refresh"))).
Proof. split; reflexivity. Qed.

Example token_file_after_first_grant :
  let w := Fixture.world Fixture.with_calendar [Fixture.header] in
  let s' := snd (main w (initial_state None)) in
  writes (trace s') = [AuthorizedUser Fixture.fresh] /\
  token_json s' = Some (AuthorizedUser Fixture.fresh).
Proof. split; reflexivity. Qed.

Example token_file_after_rejected_refresh :
  let w := Fixture.world_revoked [Fixture.header] in
  let s' := snd (main w (initial_state (Some (AuthorizedUser Fixture.stale)))) in
  writes (trace s') = [] /\
  token_json s' = Some (AuthorizedUser Fixture.stale).
Proof. split; reflexivity. Qed.

(** * Further properties of the code *)

(** ** Rows and columns *)

(** [build_event] reads a row through its fields only. *)
Lemma build_event_fields (r1 r2 : Csv.row) :
  Csv.fields r1 = Csv.fields r2 -> build_event r1 = build_event r2.
Proof.
  intros H. unfold build_event, Csv.getitem. now rewrite H.
Qed.

Lemma zip_longer_r (hdr r extra : list string) :
  (length hdr <= length r)%nat -> zip hdr (r ++ extra)%list = zip hdr r.
Proof.
  revert r. induction hdr as [|h hdr IH]; intros r H; [reflexivity|].
  destruct r as [|x r]; simpl in H; [lia|].
  simpl. f_equal. apply IH. lia.
Qed.

(** X4.  Whatever stands in a line beyond the last column of the header has no
    part in the event. *)
Theorem fields_beyond_header_ignored (hdr r extra : Csv.record) :
  (length hdr <= length r)%nat ->
  build_event (Csv.make_row hdr (r ++ extra)%list)
  = build_event (Csv.make_row hdr r).
Proof.
  intros H. apply build_event_fields. unfold Csv.make_row.
  rewrite (zip_longer_r hdr r extra H).
  assert (Hd : forall l : list string,
             (length hdr <= length l)%nat -> drop (length l) hdr = [])
    by (intros l Hl; apply drop_ge; exact Hl).
  destruct (length hdr <? length (r ++ extra)%list)%nat eqn:E1,
    (length hdr <? length r)%nat eqn:E2; cbn [Csv.fields];
    try reflexivity.
  - now rewrite (Hd r H).
  - rewrite (Hd (r ++ extra)%list) by (rewrite length_app; lia). reflexivity.
  - rewrite (Hd r H), (Hd (r ++ extra)%list) by (rewrite length_app; lia).
    reflexivity.
Qed.

Lemma fields_beyond_header_ignored_witness :
  build_event (Csv.make_row Fixture.header (Fixture.exercise ++ ["x"; "y"])%list)
  = build_event (Csv.make_row Fixture.header Fixture.exercise).
Proof.
  apply (fields_beyond_header_ignored Fixture.header Fixture.exercise ["x"; "y"]).
  simpl. lia.
Defined.

(** A column name that is not in the header is not a key of any row. *)
Lemma restval_keys (l : list string) (d : gmap string (option string)) (k : string) :
  ~ In k l -> foldl (fun d k => <[k := None]> d) d l !! k = d !! k.
Proof.
  revert d. induction l as [|x l IH]; intros d H; simpl; [reflexivity|].
  rewrite IH by (intros Hin; apply H; right; exact Hin).
  apply lookup_insert_ne. intros ->. apply H. left. reflexivity.
Qed.

Lemma zip_keys (hdr r : list string) (d : gmap string (option string)) (k : string) :
  ~ In k hdr ->
  foldl (fun d kv => <[kv.1 := Some kv.2]> d) d (zip hdr r) !! k = d !! k.
Proof.
  revert r d. induction hdr as [|h hdr IH]; intros r d H; [reflexivity|].
  destruct r as [|x r]; [reflexivity|]. simpl.
  rewrite IH by (intros Hin; apply H; right; exact Hin).
  apply lookup_insert_ne. intros ->. apply H. left. reflexivity.
Qed.

Lemma getitem_missing_column (hdr r : Csv.record) (k : string) :
  ~ In k hdr -> Csv.getitem (Csv.make_row hdr r) k = Raise (KeyError k).
Proof.
  intros H. unfold Csv.getitem, Csv.make_row.
  assert (Hdrop : ~ In k (drop (length r) hdr)).
  { intros Hin. apply H. apply list_elem_of_In. apply list_elem_of_In in Hin.
    revert Hin. apply subseteq_drop. }
  destruct (length hdr <? length r)%nat; cbn [Csv.fields].
  - now rewrite zip_keys, lookup_empty.
  - now rewrite restval_keys, zip_keys, lookup_empty.
Qed.

(** No event is built under a header that lacks one of the seven column
    names the loop reads; when [Start Date] is the one missing the error is
    the [KeyError] of that name. *)
Lemma build_event_missing_column (hdr r : Csv.record) (k : string) :
  In k columns_read -> ~ In k hdr ->
  (exists e, build_event (Csv.make_row hdr r) = Raise e) /\
  (k = "Start Date" ->
   build_event (Csv.make_row hdr r) = Raise (KeyError "Start Date")).
Proof.
  intros Hk Hhdr. split.
  - destruct (build_event (Csv.make_row hdr r)) as [ev|e] eqn:E; [|eauto].
    exfalso. apply build_event_Ok in E.
    destruct E as (sd & st & dt & ed & et & dt' & su & lo & de
                   & H1 & H2 & _ & H4 & H5 & _ & H7 & H8 & H9 & _).
    pose proof (getitem_missing_column hdr r k Hhdr) as Hmiss.
    simpl in Hk.
    repeat (destruct Hk as [<-|Hk]; [congruence|]). exact Hk.
  - intros ->. unfold build_event, result_bind.
    now rewrite (getitem_missing_column hdr r "Start Date" Hhdr).
Qed.

(** The lookups of the loop body in a row made under the documented header,
    evaluated column by column. *)
Ltac read_columns :=
  repeat match goal with
         | |- context [Csv.getitem (Csv.make_row Fixture.header ?r) ?k] =>
             let v := eval vm_compute in (Csv.getitem (Csv.make_row Fixture.header r) k) in
             change (Csv.getitem (Csv.make_row Fixture.header r) k) with v
         end.

Lemma build_event_full_row (su sd st ed et de lo : string)
    (dt dt' : Datetime.datetime) :
  Strptime.strptime (sd +:+ " " +:+ st) = Ok dt ->
  Strptime.strptime (ed +:+ " " +:+ et) = Ok dt' ->
  build_event (Csv.make_row Fixture.header [su; sd; st; ed; et; de; lo])
  = Ok (mk_Event (Some su) (Some lo) (Some de)
          (mk_time_point (Datetime.isoformat dt) "America/New_York")
          (mk_time_point (Datetime.isoformat dt') "America/New_York")
          (create_weekly_recurrence dt)).
Proof.
  intros Hs He. unfold build_event, result_bind. read_columns.
  cbv beta iota. unfold format_field, default. cbn [from_option id].
  now rewrite Hs, He.
Qed.

(** X1.  Under the documented header, a line of seven
    fields whose start and end texts parse gives the event whose summary,
    description and location are the first, sixth and seventh field, whose
    start and end are the parsed instants in ISO form, both in
    [America/New_York], whatever the order of the two instants. *)
Theorem full_row_event (su sd st ed et de lo : string)
    (dt dt' : Datetime.datetime) :
  Strptime.strptime (sd +:+ " " +:+ st) = Ok dt ->
  Strptime.strptime (ed +:+ " " +:+ et) = Ok dt' ->
  build_event (Csv.make_row Fixture.header [su; sd; st; ed; et; de; lo])
  = Ok (mk_Event (Some su) (Some lo) (Some de)
          (mk_time_point (Datetime.isoformat dt) "America/New_York")
          (mk_time_point (Datetime.isoformat dt') "America/New_York")
          (create_weekly_recurrence dt)).
Proof.
  intros Hs He. unfold build_event, result_bind. read_columns.
  cbv beta iota. unfold format_field, default. cbn [from_option id].
  now rewrite Hs, He.
Qed.

Lemma full_row_event_witness :
  build_event (Csv.make_row Fixture.header
                 ["Review"; "2024-10-18"; "16:00"; "2024-10-18"; "15:00";
                  "Sprint"; "Room 2"])
  = Ok (mk_Event (Some "Review") (Some "Room 2") (Some "Sprint")
          (mk_time_point
             (Datetime.isoformat (Datetime.mk_datetime 2024 10 18 16 0 0))
             "America/New_York")
          (mk_time_point
             (Datetime.isoformat (Datetime.mk_datetime 2024 10 18 15 0 0))
             "America/New_York")
          (create_weekly_recurrence (Datetime.mk_datetime 2024 10 18 16 0 0))).
Proof.
  apply (full_row_event "Review" "2024-10-18" "16:00" "2024-10-18" "15:00"
           "Sprint" "Room 2"); reflexivity.
Defined.

(** X3.  Under the documented header, a line that stops after the end time is
    still turned into an event: its description and location are [None],
    not a [KeyError]. *)
Theorem short_row_event (su sd st ed et : string) (dt dt' : Datetime.datetime) :
  Strptime.strptime (sd +:+ " " +:+ st) = Ok dt ->
  Strptime.strptime (ed +:+ " " +:+ et) = Ok dt' ->
  build_event (Csv.make_row Fixture.header [su; sd; st; ed; et])
  = Ok (mk_Event (Some su) None None
          (mk_time_point (Datetime.isoformat dt) "America/New_York")
          (mk_time_point (Datetime.isoformat dt') "America/New_York")
          (create_weekly_recurrence dt)).
Proof.
  intros Hs He. unfold build_event, result_bind. read_columns.
  cbv beta iota. unfold format_field, default. cbn [from_option id].
  now rewrite Hs, He.
Qed.

Lemma short_row_event_witness :
  build_event (Csv.make_row Fixture.header
                 ["Review"; "2024-10-18"; "15:00"; "2024-10-18"; "16:00"])
  = Ok (mk_Event (Some "Review") None None
          (mk_time_point
             (Datetime.isoformat (Datetime.mk_datetime 2024 10 18 15 0 0))
             "America/New_York")
          (mk_time_point
             (Datetime.isoformat (Datetime.mk_datetime 2024 10 18 16 0 0))
             "America/New_York")
          (create_weekly_recurrence (Datetime.mk_datetime 2024 10 18 15 0 0))).
Proof.
  apply (short_row_event "Review" "2024-10-18" "15:00" "2024-10-18" "16:00");
    reflexivity.
Defined.

(** ** Tables at the edges *)

(** The import of a table with a header, before any assumption on the
    calendar identifier. *)
Lemma add_events_from_csv_header (w : World) (service : Service) (s : State)
    (hdr : Csv.record) (rows : list Csv.record) :
  calendar_events_csv w = Some (hdr :: rows) ->
  hdr <> [] ->
  add_events_from_csv w service s
  = (logger INFO (CsvColumns (Some hdr));;
     match Csv.next_record rows with
     | Some (r, _) =>
         if Csv.row_truthy (Csv.make_row hdr r)
         then logger INFO (Text "First row of CSV data:");;
              emit (Pprint (Csv.make_row hdr r))
         else ret tt
     | None => ret tt
     end;;
     logger INFO (UsingCalendarId (getenv w "CALENDAR_ID"));;
     if negb (str_truthy (getenv w "CALENDAR_ID")) then
       raise (ValueError "CALENDAR_ID is not set in the environment variables")
     else
       for_row_in_reader w hdr (default "" (getenv w "CALENDAR_ID")) rows) s.
Proof.
  intros Hfile Hhdr. unfold add_events_from_csv. rewrite Hfile.
  unfold bind at 1. unfold lift at 1.
  rewrite fieldnames_open, next_or_None_data.
  destruct (Csv.next_record rows) as [[r t]|];
    rewrite (next_after_seek0 hdr rows _ Hhdr);
    [destruct (Csv.row_truthy _)|];
    unfold bind, lift, logger, emit, ret; reflexivity.
Qed.

Lemma loop_stops_at_failure (w : World) (fns : list string) (cal : string)
    (l : list Csv.record) (s : State) (r : Csv.record) (t : list Csv.record)
    (e : exn) :
  Csv.next_record l = Some (r, t) ->
  build_event (Csv.make_row fns r) = Raise e ->
  for_row_in_reader w fns cal l s = (Raise e, s).
Proof.
  intros Hnext Hev. rewrite for_row_in_reader_next, Hnext.
  unfold bind, process_row, bind, lift. now rewrite Hev.
Qed.

Lemma loop_without_rows (w : World) (fns : list string) (cal : string)
    (l : list Csv.record) (s : State) :
  Csv.next_record l = None -> for_row_in_reader w fns cal l s = (Ok tt, s).
Proof. intros Hnext. now rewrite for_row_in_reader_next, Hnext. Qed.

(** Under field names no row can be built from, the loop changes nothing. *)
Lemma loop_under_bad_header (w : World) (fns : list string) (cal : string) :
  (forall r, exists e, build_event (Csv.make_row fns r) = Raise e) ->
  forall l s, snd (for_row_in_reader w fns cal l s) = s.
Proof.
  intros Hbad l s. destruct (Csv.next_record l) as [[r t]|] eqn:Hnext.
  - destruct (Hbad r) as [e He].
    now rewrite (loop_stops_at_failure w fns cal l s r t e Hnext He).
  - now rewrite (loop_without_rows w fns cal l s Hnext).
Qed.

(** X5.  When the header lacks one of the
    seven column names the loop reads, the first data row makes the import
    raise and no event is submitted; when the missing name is [Start Date]
    the error is [KeyError('Start Date')]. *)
Theorem missing_column_submits_nothing (w : World) (service : Service)
    (s : State) (hdr r : Csv.record) (rows : list Csv.record) (cal k : string) :
  calendar_events_csv w = Some (hdr :: r :: rows) ->
  hdr <> [] ->
  r <> [] ->
  getenv w "CALENDAR_ID" = Some cal ->
  cal <> "" ->
  In k columns_read ->
  ~ In k hdr ->
  (exists e, fst (add_events_from_csv w service s) = Raise e /\
             (k = "Start Date" -> e = KeyError "Start Date")) /\
  inserted (trace (snd (add_events_from_csv w service s))) = inserted (trace s).
Proof.
  intros Hfile Hhdr Hr Hcal Hne Hk Hmiss.
  rewrite (add_events_from_csv_table w service s hdr _ cal Hfile Hhdr Hcal Hne).
  destruct (build_event_missing_column hdr r k Hk Hmiss) as [[e He] Hsd].
  assert (Hnext : Csv.next_record (r :: rows) = Some (r, rows))
    by (destruct r; [contradiction|reflexivity]).
  rewrite (loop_stops_at_failure w hdr cal _ _ r rows e Hnext He).
  cbn [fst snd trace]. split.
  - exists e. split; [reflexivity|]. intros ->. specialize (Hsd eq_refl). congruence.
  - now rewrite inserted_app, inserted_prelude_trace, app_nil_r.
Qed.

Lemma missing_column_submits_nothing_witness :
  let hdr := ["Subject"; "Date"; "Start Time"; "End Date"; "End Time";
              "Description"; "Location"] in
  let w := Fixture.world Fixture.with_calendar
             [hdr; Fixture.exercise; Fixture.reading] in
  let service := mk_Service Fixture.fresh in
  (exists e,
     fst (add_events_from_csv w service (initial_state None)) = Raise e /\
     ("Start Date" = "Start Date" -> e = KeyError "Start Date")) /\
  inserted (trace (snd (add_events_from_csv w service (initial_state None))))
  = inserted (trace (initial_state None)).
Proof.
  intros hdr w service.
  apply (missing_column_submits_nothing w service (initial_state None) hdr
           Fixture.exercise [Fixture.reading] "primary" "Start Date").
  - reflexivity.
  - discriminate.
  - discriminate.
  - reflexivity.
  - discriminate.
  - left. reflexivity.
  - intros H. simpl in H. repeat (destruct H as [H|H]; [discriminate|]). exact H.
Defined.

(** X7.  When the events file is empty or
    holds blank lines only, the import raises [StopIteration] at the
    discarded [next(reader)] and submits nothing. *)
Theorem empty_table_raises_StopIteration (w : World) (service : Service)
    (s : State) (file : list Csv.record) :
  calendar_events_csv w = Some file ->
  Csv.next_record file = None ->
  fst (add_events_from_csv w service s) = Raise StopIteration /\
  inserted (trace (snd (add_events_from_csv w service s))) = inserted (trace s).
Proof.
  intros Hfile Hnone.
  assert (Hrun : exists fns,
             add_events_from_csv w service s
             = (Raise StopIteration,
                mk_State (token_json s) (trace s ++ [Log INFO (CsvColumns fns)]))).
  { unfold add_events_from_csv. rewrite Hfile.
    unfold bind at 1. unfold lift at 1.
    destruct file as [|h t].
    - exists None. reflexivity.
    - destruct h as [|x h]; [|discriminate]. cbn [Csv.next_record] in Hnone.
      exists (Some []).
      rewrite fieldnames_open, next_or_None_data, Hnone.
      unfold Csv.next, Csv.seek0, Csv.fieldnames.
      cbn [Csv._fieldnames Csv.unread Csv.contents Csv.next_record].
      rewrite Hnone. reflexivity. }
  destruct Hrun as [fns ->]. cbn [fst snd trace].
  split; [reflexivity|]. rewrite inserted_app. apply app_nil_r.
Qed.

Lemma empty_table_raises_StopIteration_witness :
  let w := Fixture.world Fixture.with_calendar [[]; []] in
  let service := mk_Service Fixture.fresh in
  fst (add_events_from_csv w service (initial_state None)) = Raise StopIteration /\
  inserted (trace (snd (add_events_from_csv w service (initial_state None))))
  = inserted (trace (initial_state None)).
Proof.
  intros w service.
  apply (empty_table_raises_StopIteration w service (initial_state None) [[]; []]);
    reflexivity.
Defined.

(** With no field names every row lacks [Start Date]. *)
Lemma build_event_no_field_names (r : Csv.record) :
  exists e, build_event (Csv.make_row [] r) = Raise e.
Proof.
  apply (build_event_missing_column [] r "Start Date"); [left; reflexivity|].
  intros [].
Qed.

(** X8.  When the events file starts with a blank line
    the reader has no field names, so whatever lines follow, the import
    submits no event. *)
Theorem blank_first_line_submits_nothing (w : World) (service : Service)
    (s : State) (rows : list Csv.record) :
  calendar_events_csv w = Some ([] :: rows) ->
  inserted (trace (snd (add_events_from_csv w service s))) = inserted (trace s).
Proof.
  intros Hfile.
  assert (Hrun : exists added,
             snd (add_events_from_csv w service s)
             = mk_State (token_json s) (trace s ++ added) /\
             inserted added = []).
  { unfold add_events_from_csv. rewrite Hfile.
    unfold bind at 1. unfold lift at 1.
    rewrite fieldnames_open, next_or_None_data.
    unfold Csv.next, Csv.seek0, Csv.fieldnames.
    destruct (Csv.next_record rows) as [[r t]|] eqn:Hnext;
      cbn [Csv._fieldnames Csv.unread Csv.contents Csv.next_record];
      rewrite Hnext;
      [destruct (Csv.row_truthy _)|];
      unfold bind, logger, emit, ret, lift, raise;
      cbn [fst snd trace token_json default];
      try destruct (negb _);
      try rewrite (loop_under_bad_header w [] _ build_event_no_field_names);
      cbn [fst snd trace token_json];
      eexists; (split; [repeat rewrite <- app_assoc; reflexivity|]);
      reflexivity. }
  destruct Hrun as (added & -> & Hadded). cbn [trace].
  now rewrite inserted_app, Hadded, app_nil_r.
Qed.

Lemma blank_first_line_submits_nothing_witness :
  let w := Fixture.world Fixture.with_calendar
             [[]; Fixture.header; Fixture.exercise; Fixture.reading] in
  let service := mk_Service Fixture.fresh in
  inserted (trace (snd (add_events_from_csv w service (initial_state None))))
  = inserted (trace (initial_state None)).
Proof.
  intros w service.
  apply (blank_first_line_submits_nothing w service (initial_state None)
           [Fixture.header; Fixture.exercise; Fixture.reading]).
  reflexivity.
Defined.

(** X9.  Called on a readable table while the
    calendar identifier is absent or empty, [add_events_from_csv] raises
    [ValueError] after reading the header and previewing the first row,
    and submits nothing. *)
Theorem import_guard_raises_ValueError (w : World) (service : Service)
    (s : State) (hdr : Csv.record) (rows : list Csv.record) :
  calendar_events_csv w = Some (hdr :: rows) ->
  hdr <> [] ->
  str_truthy (getenv w "CALENDAR_ID") = false ->
  fst (add_events_from_csv w service s)
  = Raise (ValueError "CALENDAR_ID is not set in the environment variables") /\
  inserted (trace (snd (add_events_from_csv w service s))) = inserted (trace s).
Proof.
  intros Hfile Hhdr Hcal.
  rewrite (add_events_from_csv_header w service s hdr rows Hfile Hhdr), Hcal.
  cbn [negb].
  destruct (Csv.next_record rows) as [[r t]|]; [destruct (Csv.row_truthy _)|];
    unfold bind, logger, emit, ret, raise; cbn [fst snd trace token_json];
    (split; [reflexivity|]); repeat rewrite inserted_app; simpl;
    now repeat rewrite app_nil_r.
Qed.

Lemma import_guard_raises_ValueError_witness :
  let w := Fixture.world ∅ [Fixture.header; Fixture.exercise] in
  let service := mk_Service Fixture.fresh in
  fst (add_events_from_csv w service (initial_state None))
  = Raise (ValueError "CALENDAR_ID is not set in the environment variables") /\
  inserted (trace (snd (add_events_from_csv w service (initial_state None))))
  = inserted (trace (initial_state None)).
Proof.
  intros w service.
  apply (import_guard_raises_ValueError w service (initial_state None)
           Fixture.header [Fixture.exercise]).
  - reflexivity.
  - discriminate.
  - reflexivity.
Defined.

Lemma next_record_drop_blank (l : list Csv.record) :
  Csv.next_record (drop_blank l)
  = match Csv.next_record l with
    | Some (r, t) => Some (r, drop_blank t)
    | None => None
    end.
Proof.
  induction l as [|r t IH]; [reflexivity|].
  destruct r as [|x r]; [exact IH|reflexivity].
Qed.

Lemma loop_drop_blank (w : World) (fns : list string) (cal : string)
    (l : list Csv.record) :
  for_row_in_reader w fns cal (drop_blank l) = for_row_in_reader w fns cal l.
Proof.
  induction l as [|r t IH]; [reflexivity|].
  destruct r as [|x r]; [exact IH|].
  change (drop_blank ((x :: r) :: t)) with ((x :: r) :: drop_blank t).
  cbn [for_row_in_reader]. now rewrite IH.
Qed.

Lemma loop_with_table (w : World) (file : option (list Csv.record))
    (fns : list string) (cal : string) (l : list Csv.record) :
  for_row_in_reader (with_table w file) fns cal l = for_row_in_reader w fns cal l.
Proof.
  induction l as [|r t IH]; [reflexivity|].
  destruct r as [|x r]; [exact IH|].
  cbn [for_row_in_reader]. rewrite IH. reflexivity.
Qed.

(** X6.  Blank lines among the data rows change nothing: the
    import of a table and the import of the same table without them give
    the same result and the same trace. *)
Theorem blank_lines_are_skipped (w : World) (service : Service) (s : State)
    (hdr : Csv.record) (rows : list Csv.record) :
  hdr <> [] ->
  add_events_from_csv (with_table w (Some (hdr :: rows))) service s
  = add_events_from_csv (with_table w (Some (hdr :: drop_blank rows))) service s.
Proof.
  intros Hhdr.
  rewrite (add_events_from_csv_header (with_table w (Some (hdr :: rows)))
             service s hdr rows eq_refl Hhdr).
  rewrite (add_events_from_csv_header
             (with_table w (Some (hdr :: drop_blank rows)))
             service s hdr (drop_blank rows) eq_refl Hhdr).
  rewrite !loop_with_table, loop_drop_blank, next_record_drop_blank.
  change (getenv (with_table w (Some (hdr :: drop_blank rows))) "CALENDAR_ID")
    with (getenv (with_table w (Some (hdr :: rows))) "CALENDAR_ID").
  destruct (Csv.next_record rows) as [[r t]|]; reflexivity.
Qed.

Lemma blank_lines_are_skipped_witness :
  let w := Fixture.world Fixture.with_calendar [] in
  let service := mk_Service Fixture.fresh in
  add_events_from_csv
    (with_table w (Some [Fixture.header; []; Fixture.exercise; []; [];
                         Fixture.reading])) service (initial_state None)
  = add_events_from_csv
      (with_table w (Some (Fixture.header
                           :: drop_blank [[]; Fixture.exercise; []; [];
                                          Fixture.reading])))
      service (initial_state None).
Proof.
  intros w service.
  apply (blank_lines_are_skipped w service (initial_state None) Fixture.header
           [[]; Fixture.exercise; []; []; Fixture.reading]).
  discriminate.
Defined.

(** ** What each phase adds to the trace *)

Section AddsOnly.
Context {A B : Type} (p : effect -> bool).

Lemma adds_only_unchanged (m : M A) :
  (forall s, snd (m s) = s) -> adds_only p m.
Proof.
  intros H s. exists []. rewrite H, app_nil_r, state_eta. split; reflexivity.
Qed.

Lemma adds_only_ret (a : A) : adds_only p (ret a).
Proof. apply adds_only_unchanged. reflexivity. Qed.

Lemma adds_only_raise (e : exn) : adds_only p (@raise A e).
Proof. apply adds_only_unchanged. reflexivity. Qed.

Lemma adds_only_lift (r : result A) : adds_only p (lift r).
Proof. apply adds_only_unchanged. reflexivity. Qed.

Lemma adds_only_bind (m : M A) (k : A -> M B) :
  adds_only p m -> (forall a, adds_only p (k a)) -> adds_only p (bind m k).
Proof.
  intros Hm Hk s. unfold bind. destruct (Hm s) as (a1 & Hs1 & Ha1).
  destruct (m s) as [[a|e] s1]; cbn [snd] in *; [|eauto].
  destruct (Hk a s1) as (a2 & Hs2 & Ha2). subst s1. cbn [token_json trace] in Hs2.
  exists (a1 ++ a2)%list. rewrite Hs2, app_assoc, forallb_app, Ha1, Ha2.
  split; reflexivity.
Qed.

Lemma adds_only_try_except (m : M A) (catches : exn -> bool) (h : exn -> M A) :
  adds_only p m -> (forall e, adds_only p (h e)) ->
  adds_only p (try_except m catches h).
Proof.
  intros Hm Hh s. unfold try_except. destruct (Hm s) as (a1 & Hs1 & Ha1).
  destruct (m s) as [[a|e] s1]; cbn [snd] in *; [eauto|].
  destruct (catches e); [|eauto].
  destruct (Hh e s1) as (a2 & Hs2 & Ha2). subst s1. cbn [token_json trace] in Hs2.
  exists (a1 ++ a2)%list. rewrite Hs2, app_assoc, forallb_app, Ha1, Ha2.
  split; reflexivity.
Qed.

End AddsOnly.

Lemma adds_only_emit (p : effect -> bool) (e : effect) :
  p e = true -> adds_only p (emit e).
Proof.
  intros H s. exists [e]. cbn [forallb]. rewrite H. split; reflexivity.
Qed.

Lemma import_effects_process_row (w : World) (cal : string) (row : Csv.row) :
  adds_only is_import_effect (process_row w cal row).
Proof.
  unfold process_row.
  apply adds_only_bind; [apply adds_only_lift|]. intros ev.
  apply adds_only_bind; [apply adds_only_emit; reflexivity|]. intros _.
  apply adds_only_try_except; [|intros e; apply adds_only_emit; reflexivity].
  apply adds_only_bind; [|intros link; apply adds_only_emit; reflexivity].
  intros s. unfold events_insert. eexists. split; reflexivity.
Qed.

Lemma import_effects_loop (w : World) (fns : list string) (cal : string)
    (l : list Csv.record) :
  adds_only is_import_effect (for_row_in_reader w fns cal l).
Proof.
  induction l as [|r t IH]; [apply adds_only_ret|].
  destruct r as [|f fs]; [exact IH|].
  cbn [for_row_in_reader].
  apply adds_only_bind; [apply import_effects_process_row|]. intros _. exact IH.
Qed.

Lemma import_effects (w : World) (service : Service) :
  adds_only is_import_effect (add_events_from_csv w service).
Proof.
  unfold add_events_from_csv.
  apply adds_only_bind; [apply adds_only_lift|]. intros file.
  destruct (Csv.fieldnames (Csv.open_reader file)) as [fns rd1].
  apply adds_only_bind; [apply adds_only_emit; reflexivity|]. intros _.
  destruct (Csv.next_or_None rd1) as [first rd2].
  apply adds_only_bind.
  { destruct first as [r|]; [destruct (Csv.row_truthy r)|];
      try apply adds_only_ret.
    apply adds_only_bind; [apply adds_only_emit; reflexivity|]. intros _.
    apply adds_only_emit; reflexivity. }
  intros _. destruct (Csv.next (Csv.seek0 rd2)) as [header rd3].
  apply adds_only_bind; [apply adds_only_lift|]. intros _.
  apply adds_only_bind; [apply adds_only_emit; reflexivity|]. intros _.
  destruct (negb _); [apply adds_only_raise | apply import_effects_loop].
Qed.

Lemma import_effect_filters (added : list effect) :
  forallb is_import_effect added = true ->
  List.filter is_refresh added = [] /\
  List.filter is_interactive added = [] /\
  writes added = [] /\
  replacements added = [].
Proof.
  induction added as [|e t IH]; [auto|].
  cbn [forallb]. intros H. apply andb_prop in H. destruct H as [He Ht].
  destruct (IH Ht) as (H1 & H2 & H3 & H4).
  destruct e; try discriminate; unfold writes, replacements in *;
    cbn; rewrite ?H1, ?H2, ?H3, ?H4; auto.
Qed.

(** X10.  Whatever the table and whatever the
    service answers, [add_events_from_csv] leaves [token.json] as it was
    and adds to the trace only log lines, the preview of the first row and
    insert calls: no refresh request, no interactive grant, no write. *)
Theorem import_leaves_credential_alone (w : World) (service : Service)
    (s : State) :
  token_json (snd (add_events_from_csv w service s)) = token_json s /\
  exists added,
    trace (snd (add_events_from_csv w service s)) = (trace s ++ added)%list /\
    forallb is_import_effect added = true /\
    List.filter is_refresh added = [] /\
    List.filter is_interactive added = [] /\
    writes added = [].
Proof.
  destruct (import_effects w service s) as (added & -> & Hadded).
  split; [reflexivity|]. exists added.
  destruct (import_effect_filters added Hadded) as (H1 & H2 & H3 & _).
  auto.
Qed.

(** ** The paths of authentication *)

(** [token.json] cannot be loaded. *)
Lemma authenticate_unreadable (w : World) (s : State) (f : token_file) (e : exn) :
  token_json s = Some f ->
  from_authorized_user_file w f = Raise e ->
  authenticate_google_calendar w s
  = (Raise e,
     mk_State (Some f)
       (trace s ++ [Log DEBUG (Text "Found existing token.json file")])).
Proof.
  intros Hs Hf. run_auth. rewrite Hs. run_auth. now rewrite Hf.
Qed.

(** The loaded credential is invalid and cannot be refreshed. *)
Lemma authenticate_grant_loaded (w : World) (s : State) (f : token_file)
    (c : Credentials) :
  token_json s = Some f ->
  from_authorized_user_file w f = Ok c ->
  valid w c = false ->
  expired w c && str_truthy (refresh_token c) = false ->
  authenticate_google_calendar w s
  = match run_local_server w with
    | Ok c' =>
        (build w c',
         mk_State (Some (AuthorizedUser c'))
           (trace s ++ [Log DEBUG (Text "Found existing token.json file");
                        Log DEBUG (Text "Credentials are missing or invalid");
                        Log DEBUG (Text "Starting new authentication flow");
                        InteractiveGrant (Ok c');
                        Log DEBUG (Text "Saving credentials to token.json");
                        WriteToken (AuthorizedUser c');
                        Log DEBUG (Text "Building Google Calendar service")]))
    | Raise e =>
        (Raise e,
         mk_State (Some f)
           (trace s ++ [Log DEBUG (Text "Found existing token.json file");
                        Log DEBUG (Text "Credentials are missing or invalid");
                        Log DEBUG (Text "Starting new authentication flow");
                        InteractiveGrant (Raise e)]))
    end.
Proof.
  intros Hs Hf Hv Hr. run_auth. rewrite Hs. run_auth. rewrite Hf, Hv. run_auth.
  rewrite Hr. run_auth.
  destruct (run_local_server w) as [c'|e]; run_auth;
    repeat rewrite <- app_assoc; reflexivity.
Qed.

(** There is no [token.json]. *)
Lemma authenticate_grant_first (w : World) (s : State) :
  token_json s = None ->
  authenticate_google_calendar w s
  = match run_local_server w with
    | Ok c' =>
        (build w c',
         mk_State (Some (AuthorizedUser c'))
           (trace s ++ [Log DEBUG (Text "Credentials are missing or invalid");
                        Log DEBUG (Text "Starting new authentication flow");
                        InteractiveGrant (Ok c');
                        Log DEBUG (Text "Saving credentials to token.json");
                        WriteToken (AuthorizedUser c');
                        Log DEBUG (Text "Building Google Calendar service")]))
    | Raise e =>
        (Raise e,
         mk_State None
           (trace s ++ [Log DEBUG (Text "Credentials are missing or invalid");
                        Log DEBUG (Text "Starting new authentication flow");
                        InteractiveGrant (Raise e)]))
    end.
Proof.
  intros Hs. run_auth. rewrite Hs. run_auth.
  destruct (run_local_server w) as [c'|e]; run_auth; rewrite ?Hs;
    repeat rewrite <- app_assoc; reflexivity.
Qed.

(** The five paths together: what authentication adds to the trace. *)
Lemma authenticate_effects (w : World) (s : State) :
  exists added,
    trace (snd (authenticate_google_calendar w s)) = (trace s ++ added)%list /\
    forallb is_auth_effect added = true /\
    (length (List.filter is_network added) <= 1)%nat /\
    inserted added = [].
Proof.
  destruct (token_json s) as [f|] eqn:Hs.
  - destruct (from_authorized_user_file w f) as [c|e] eqn:Hf.
    + destruct (valid w c) eqn:Hv.
      * rewrite (authenticate_valid w s f c Hs Hf Hv).
        eexists. split; [reflexivity|]. cbn. auto.
      * destruct (expired w c && str_truthy (refresh_token c)) eqn:Hr.
        -- apply andb_prop in Hr. destruct Hr as [He Hr].
           rewrite (authenticate_refresh w s f c Hs Hf He Hr).
           destruct (refresh_grant w c); eexists; (split; [reflexivity|]);
             cbn; auto.
        -- rewrite (authenticate_grant_loaded w s f c Hs Hf Hv Hr).
           destruct (run_local_server w); eexists; (split; [reflexivity|]);
             cbn; auto.
    + rewrite (authenticate_unreadable w s f e Hs Hf).
      eexists. split; [reflexivity|]. cbn. auto.
  - rewrite (authenticate_grant_first w s Hs).
    destruct (run_local_server w); eexists; (split; [reflexivity|]);
      cbn; auto.
Qed.

Lemma token_requests_are_network (l : list effect) :
  (length (List.filter is_refresh l) + length (List.filter is_interactive l)
   <= length (List.filter is_network l))%nat.
Proof.
  induction l as [|e l IH]; [reflexivity|]. destruct e; cbn; lia.
Qed.

(** X12.  Authentication makes at most one
    network call, a refresh request or an interactive grant and never both,
    and it never submits an event; beyond that call it only logs and writes
    [token.json]. *)
Theorem authentication_one_network_call (w : World) (tok : option token_file) :
  let t := trace (snd (authenticate_google_calendar w (initial_state tok))) in
  forallb is_auth_effect t = true /\
  (length (List.filter is_refresh t) + length (List.filter is_interactive t)
   <= 1)%nat /\
  inserted t = [].
Proof.
  intros t. subst t.
  destruct (authenticate_effects w (initial_state tok)) as (added & -> & Hp & Hn & Hi).
  cbn [initial_state trace app]. split; [exact Hp|]. split; [|exact Hi].
  pose proof (token_requests_are_network added). lia.
Qed.

(** X13.  When authentication returns a
    service, it was built from a credential that is either the valid one
    loaded from an untouched [token.json], or the one [token.json] now
    holds. *)
Theorem service_built_from_held_credential (w : World) (s : State)
    (service : Service) :
  fst (authenticate_google_calendar w s) = Ok service ->
  exists c,
    build w c = Ok service /\
    ((exists f, token_json s = Some f /\
                from_authorized_user_file w f = Ok c /\
                valid w c = true /\
                token_json (snd (authenticate_google_calendar w s)) = Some f)
     \/ token_json (snd (authenticate_google_calendar w s)) = Some (to_json c)).
Proof.
  destruct (token_json s) as [f|] eqn:Hs.
  - destruct (from_authorized_user_file w f) as [c|e] eqn:Hf.
    + destruct (valid w c) eqn:Hv.
      * rewrite (authenticate_valid w s f c Hs Hf Hv). cbn [fst snd token_json].
        intros H. exists c. split; [exact H|]. left. exists f. auto.
      * destruct (expired w c && str_truthy (refresh_token c)) eqn:Hr.
        -- apply andb_prop in Hr. destruct Hr as [He Hr].
           rewrite (authenticate_refresh w s f c Hs Hf He Hr).
           destruct (refresh_grant w c) as [c'|e]; cbn [fst snd token_json];
             [|discriminate].
           intros H. exists c'. split; [exact H|]. right. reflexivity.
        -- rewrite (authenticate_grant_loaded w s f c Hs Hf Hv Hr).
           destruct (run_local_server w) as [c'|e]; cbn [fst snd token_json];
             [|discriminate].
           intros H. exists c'. split; [exact H|]. right. reflexivity.
    + rewrite (authenticate_unreadable w s f e Hs Hf). discriminate.
  - rewrite (authenticate_grant_first w s Hs).
    destruct (run_local_server w) as [c'|e]; cbn [fst snd token_json];
      [|discriminate].
    intros H. exists c'. split; [exact H|]. right. reflexivity.
Qed.

Lemma service_built_from_held_credential_witness :
  let w := Fixture.world Fixture.with_calendar [Fixture.header] in
  let s := initial_state (Some (AuthorizedUser Fixture.stale)) in
  exists c,
    build w c = Ok (mk_Service
                      (mk_Credentials (Some "ya29.new") (Some 4600)
                         (Some "1//refresh"))) /\
    ((exists f, token_json s = Some f /\
                from_authorized_user_file w f = Ok c /\
                valid w c = true /\
                token_json (snd (authenticate_google_calendar w s)) = Some f)
     \/ token_json (snd (authenticate_google_calendar w s)) = Some (to_json c)).
Proof.
  intros w s.
  apply (service_built_from_held_credential w s). reflexivity.
Defined.


(** ** The whole run *)

(** [main] past its guard, phase by phase. *)
Lemma main_phases (w : World) (s : State) :
  str_truthy (getenv w "CALENDAR_ID") = true ->
  main w s
  = match authenticate_google_calendar w
            (snd (logger INFO (Text "Starting authentication process") s)) with
    | (Ok service, s2) =>
        match add_events_from_csv w service
                (snd (logger INFO (Text "Authentication successful") s2)) with
        | (Ok _, s4) => (Ok tt, s4)
        | (Raise e, s4) => (Ok tt, snd (logger ERROR (RunError e) s4))
        end
    | (Raise e, s2) => (Ok tt, snd (logger ERROR (RunError e) s2))
    end.
Proof.
  intros Hcal. unfold main, try_except, main_try. rewrite Hcal. cbn [negb].
  unfold bind at 1.
  change (logger INFO (Text "Starting authentication process") s)
    with (Ok tt, snd (logger INFO (Text "Starting authentication process") s)).
  cbn iota. unfold bind at 1.
  destruct (authenticate_google_calendar w _) as [[service|e] s2].
  - unfold bind at 1.
    change (logger INFO (Text "Authentication successful") s2)
      with (Ok tt, snd (logger INFO (Text "Authentication successful") s2)).
    cbn iota.
    destruct (add_events_from_csv w service _) as [[[]|e] s4];
      [reflexivity|]. now rewrite isinstance_Exception_all.
  - now rewrite isinstance_Exception_all.
Qed.

(** X15.  When [token.json] exists but is
    not an authorized-user file, the run ends at the load: the error is
    logged, no network call is made, no event is submitted and the file is
    left as it is; no new grant is attempted. *)
Theorem unreadable_token_file_ends_run (w : World) :
  str_truthy (getenv w "CALENDAR_ID") = true ->
  let r := main w (initial_state (Some Malformed)) in
  fst r = Ok tt /\
  List.filter is_network (trace (snd r)) = [] /\
  token_json (snd r) = Some Malformed /\
  exists msg, last (trace (snd r)) = Some (Log ERROR (RunError (ValueError msg))).
Proof.
  intros Hcal r. subst r. rewrite (main_phases w _ Hcal).
  rewrite (authenticate_unreadable w
             (snd (logger INFO (Text "Starting authentication process")
                     (initial_state (Some Malformed))))
             Malformed _ eq_refl eq_refl).
  cbn. repeat split. eexists. reflexivity.
Qed.

Lemma unreadable_token_file_ends_run_witness :
  let w := Fixture.world Fixture.with_calendar [Fixture.header; Fixture.exercise] in
  let r := main w (initial_state (Some Malformed)) in
  fst r = Ok tt /\
  List.filter is_network (trace (snd r)) = [] /\
  token_json (snd r) = Some Malformed /\
  exists msg, last (trace (snd r)) = Some (Log ERROR (RunError (ValueError msg))).
Proof.
  intros w. apply (unreadable_token_file_ends_run w). reflexivity.
Defined.

(** X16.  Whenever authentication
    raises, for whatever reason, [main] logs that error and returns without
    a single insert call. *)
Theorem failed_authentication_submits_nothing (w : World)
    (tok : option token_file) (e : exn) :
  str_truthy (getenv w "CALENDAR_ID") = true ->
  fst (authenticate_google_calendar w
         (snd (logger INFO (Text "Starting authentication process")
                 (initial_state tok)))) = Raise e ->
  fst (main w (initial_state tok)) = Ok tt /\
  inserted (trace (snd (main w (initial_state tok)))) = [] /\
  last (trace (snd (main w (initial_state tok)))) = Some (Log ERROR (RunError e)).
Proof.
  intros Hcal Hauth. rewrite (main_phases w _ Hcal).
  destruct (authenticate_effects w
              (snd (logger INFO (Text "Starting authentication process")
                      (initial_state tok)))) as (added & Ht & _ & _ & Hi).
  destruct (authenticate_google_calendar w _) as [[service|e'] s2];
    cbn [fst snd] in *; [discriminate|]. injection Hauth as ->.
  unfold logger, emit. cbn [fst snd trace token_json] in *.
  rewrite Ht. split; [reflexivity|]. split.
  - rewrite !inserted_app, Hi. reflexivity.
  - apply last_snoc.
Qed.

Lemma failed_authentication_submits_nothing_witness :
  let w := Fixture.world_denied [Fixture.header; Fixture.exercise] in
  fst (main w (initial_state None)) = Ok tt /\
  inserted (trace (snd (main w (initial_state None)))) = [] /\
  last (trace (snd (main w (initial_state None))))
  = Some (Log ERROR (RunError (OtherError "AccessDeniedError"))).
Proof.
  intros w.
  apply (failed_authentication_submits_nothing w None
           (OtherError "AccessDeniedError")); reflexivity.
Defined.

(** After authentication [main] adds only effects of the import. *)
Lemma main_adds_import_effects (w : World) (s : State) :
  str_truthy (getenv w "CALENDAR_ID") = true ->
  exists post,
    snd (main w s)
    = (let s2 := snd (authenticate_google_calendar w
                        (snd (logger INFO (Text "Starting authentication process") s))) in
       mk_State (token_json s2) (trace s2 ++ post)) /\
    forallb is_import_effect post = true.
Proof.
  intros Hcal. rewrite (main_phases w s Hcal). cbv zeta.
  destruct (authenticate_google_calendar w _) as [[service|e] s2]; cbn [snd].
  - destruct (import_effects w service
                (snd (logger INFO (Text "Authentication successful") s2)))
      as (added & Hs4 & Hadded).
    destruct (add_events_from_csv w service _) as [[[]|e] s4];
      cbn [snd] in *; subst s4; unfold logger, emit;
      cbn [snd trace token_json]; eexists;
      (split; [repeat rewrite <- app_assoc; reflexivity|]);
      cbn [forallb app is_import_effect];
      rewrite ?forallb_app, Hadded; reflexivity.
  - exists [Log ERROR (RunError e)]. split; reflexivity.
Qed.

Lemma authenticate_succeeds (w : World) (s : State) :
  remote_parties_answer w ->
  token_json s <> Some Malformed ->
  exists service,
    fst (authenticate_google_calendar w s) = Ok service /\
    token_json (snd (authenticate_google_calendar w s)) <> Some Malformed.
Proof.
  intros (Hrefresh & [c0 Hgrant] & Hbuild) Htok.
  destruct (token_json s) as [f|] eqn:Hs.
  - destruct f as [c1|]; [|contradiction].
    destruct (from_authorized_user_file w (AuthorizedUser c1)) as [c|e] eqn:Hf;
      [|discriminate].
    destruct (valid w c) eqn:Hv.
    + rewrite (authenticate_valid w s _ c Hs Hf Hv).
      destruct (Hbuild c) as [service Hsvc]. exists service.
      cbn [fst snd token_json]. split; [exact Hsvc|discriminate].
    + destruct (expired w c && str_truthy (refresh_token c)) eqn:Hr.
      * apply andb_prop in Hr. destruct Hr as [He Hr].
        rewrite (authenticate_refresh w s _ c Hs Hf He Hr).
        destruct (Hrefresh c) as [c' ->]. destruct (Hbuild c') as [service Hsvc].
        exists service. cbn [fst snd token_json]. split; [exact Hsvc|discriminate].
      * rewrite (authenticate_grant_loaded w s _ c Hs Hf Hv Hr), Hgrant.
        destruct (Hbuild c0) as [service Hsvc].
        exists service. cbn [fst snd token_json]. split; [exact Hsvc|discriminate].
  - rewrite (authenticate_grant_first w s Hs), Hgrant.
    destruct (Hbuild c0) as [service Hsvc].
    exists service. cbn [fst snd token_json]. split; [exact Hsvc|discriminate].
Qed.

(** One whole run over a table of valid rows. *)
Lemma main_valid_run (w : World) (s : State) (hdr : Csv.record)
    (rows : list Csv.record) (evs : list Event) (cal : string) :
  getenv w "CALENDAR_ID" = Some cal ->
  cal <> "" ->
  remote_parties_answer w ->
  token_json s <> Some Malformed ->
  calendar_events_csv w = Some (hdr :: rows) ->
  hdr <> [] ->
  api_answers w ->
  row_events hdr rows evs ->
  fst (main w s) = Ok tt /\
  inserted (trace (snd (main w s))) = (inserted (trace s) ++ evs)%list /\
  token_json (snd (main w s)) <> Some Malformed.
Proof.
  intros Hcal Hne Hremote Htok Hfile Hhdr Hapi Hrows.
  assert (Htruthy : str_truthy (getenv w "CALENDAR_ID") = true)
    by (rewrite Hcal; apply str_truthy_Some; exact Hne).
  rewrite (main_phases w s Htruthy).
  set (s1 := snd (logger INFO (Text "Starting authentication process") s)).
  destruct (authenticate_succeeds w s1 Hremote Htok) as (service & Hsvc & Htok2).
  destruct (authenticate_effects w s1) as (added & Ht & _ & _ & Hi).
  destruct (authenticate_google_calendar w s1) as [[service'|e] s2];
    cbn [fst snd] in *; [|discriminate].
  rewrite (add_events_from_csv_valid w service' _ hdr rows evs cal
             Hfile Hhdr Hcal Hne Hapi Hrows).
  cbn [fst snd trace token_json logger emit]. unfold logger, emit.
  cbn [fst snd trace token_json]. split; [reflexivity|]. split; [|exact Htok2].
  rewrite Ht. subst s1. unfold logger, emit. cbn [snd trace].
  rewrite !inserted_app, Hi, inserted_prelude_trace, inserted_loop_trace.
  cbn. now rewrite !app_nil_r.
Qed.

(** X17.  With the calendar identifier set, a token file that
    is absent or readable, remote parties that answer, and a table of valid
    rows, [main] returns normally and the insert calls it adds are exactly
    the events of the rows in table order, whichever way the credential was
    obtained. *)
Theorem whole_run_submits_every_row (w : World) (tok : option token_file)
    (hdr : Csv.record) (rows : list Csv.record) (evs : list Event)
    (cal : string) :
  getenv w "CALENDAR_ID" = Some cal ->
  cal <> "" ->
  remote_parties_answer w ->
  tok <> Some Malformed ->
  calendar_events_csv w = Some (hdr :: rows) ->
  hdr <> [] ->
  api_answers w ->
  row_events hdr rows evs ->
  fst (main w (initial_state tok)) = Ok tt /\
  inserted (trace (snd (main w (initial_state tok)))) = evs.
Proof.
  intros Hcal Hne Hremote Htok Hfile Hhdr Hapi Hrows.
  destruct (main_valid_run w (initial_state tok) hdr rows evs cal
              Hcal Hne Hremote Htok Hfile Hhdr Hapi Hrows) as (H1 & H2 & _).
  split; [exact H1|exact H2].
Qed.

Lemma whole_run_submits_every_row_witness :
  let table := [Fixture.header; Fixture.exercise; Fixture.reading; Fixture.lunch] in
  let w := Fixture.world_rejecting 1 table in
  fst (main w (initial_state (Some (AuthorizedUser Fixture.stale)))) = Ok tt /\
  inserted (trace (snd (main w (initial_state (Some (AuthorizedUser Fixture.stale))))))
  = [Fixture.exercise_event; Fixture.reading_event; Fixture.lunch_event].
Proof.
  intros table w.
  apply (whole_run_submits_every_row w (Some (AuthorizedUser Fixture.stale))
           Fixture.header (tail table)
           [Fixture.exercise_event; Fixture.reading_event; Fixture.lunch_event]
           "primary").
  - reflexivity.
  - discriminate.
  - split; [|split].
    + intros c. eexists. reflexivity.
    + eexists. reflexivity.
    + intros c. eexists. reflexivity.
  - discriminate.
  - reflexivity.
  - discriminate.
  - intros k cal ev. simpl. destruct (k =? 1)%nat; reflexivity.
  - repeat constructor.
Defined.



(** Loading what was saved gives the credential back when it carries an
    expiry; a credential saved without one is loaded as already expired. *)
Lemma load_saved_credential (w : World) (c : Credentials) :
  from_authorized_user_file w (to_json c)
  = Ok (mk_Credentials (token c)
          (Some (default (utcnow w - REFRESH_THRESHOLD w) (expiry c)))
          (refresh_token c)) /\
  (is_Some (expiry c) -> from_authorized_user_file w (to_json c) = Ok c) /\
  (expiry c = None -> 0 <= REFRESH_THRESHOLD w ->
   exists c', from_authorized_user_file w (to_json c) = Ok c' /\
              expired w c' = true).
Proof.
  split; [reflexivity|]. split.
  - intros [e He]. destruct c as [t x r]. cbn in *. now subst x.
  - intros He Hth. eexists. split; [reflexivity|].
    unfold expired. cbn. rewrite He. cbn. apply Z.leb_le. lia.
Qed.

(** X19.  After a first run without
    [token.json] whose grant returned a credential that carries an expiry
    and is valid at the clock, a second run makes no token request at all:
    the only grant in the trace is that of the first run and [token.json]
    still holds the granted credential. *)
Theorem stored_credential_is_reused (w : World) (c : Credentials) :
  str_truthy (getenv w "CALENDAR_ID") = true ->
  run_local_server w = Ok c ->
  is_Some (expiry c) ->
  valid w c = true ->
  let s2 := snd (main w (snd (main w (initial_state None)))) in
  List.filter is_refresh (trace s2) = [] /\
  List.filter is_interactive (trace s2) = [InteractiveGrant (Ok c)] /\
  writes (trace s2) = [to_json c] /\
  token_json s2 = Some (to_json c).
Proof.
  intros Hcal Hgrant Hexp Hvalid s2. subst s2.
  destruct (main_adds_import_effects w (initial_state None) Hcal)
    as (post1 & Hs1 & Hp1).
  cbv zeta in Hs1.
  rewrite (authenticate_grant_first w
             (snd (logger INFO (Text "Starting authentication process")
                     (initial_state None))) eq_refl), Hgrant in Hs1.
  unfold logger, emit in Hs1. cbn [snd trace token_json initial_state] in Hs1.
  set (s1 := snd (main w (initial_state None))) in *.
  destruct (main_adds_import_effects w s1 Hcal) as (post2 & Hs2 & Hp2).
  cbv zeta in Hs2.
  assert (Htok1 : token_json
                    (snd (logger INFO (Text "Starting authentication process") s1))
                  = Some (to_json c)) by (rewrite Hs1; reflexivity).
  destruct (load_saved_credential w c) as (_ & Hload & _).
  rewrite (authenticate_valid w _ (to_json c) c Htok1 (Hload Hexp) Hvalid) in Hs2.
  unfold logger, emit in Hs2. cbn [snd trace token_json] in Hs2.
  rewrite Hs2, Hs1. cbn [trace token_json].
  destruct (import_effect_filters post1 Hp1) as (A1 & A2 & A3 & _).
  destruct (import_effect_filters post2 Hp2) as (B1 & B2 & B3 & _).
  rewrite !List.filter_app, !writes_app, A1, A2, A3, B1, B2, B3.
  cbn. auto.
Qed.

Lemma stored_credential_is_reused_witness :
  let w := Fixture.world Fixture.with_calendar [Fixture.header; Fixture.exercise] in
  let s2 := snd (main w (snd (main w (initial_state None)))) in
  List.filter is_refresh (trace s2) = [] /\
  List.filter is_interactive (trace s2) = [InteractiveGrant (Ok Fixture.fresh)] /\
  writes (trace s2) = [to_json Fixture.fresh] /\
  token_json s2 = Some (to_json Fixture.fresh).
Proof.
  intros w.
  apply (stored_credential_is_reused w Fixture.fresh).
  - reflexivity.
  - reflexivity.
  - eexists. reflexivity.
  - reflexivity.
Defined.

(** X20.  The events file is opened only after
    authentication: when it cannot be opened and authentication succeeds,
    the run has already made its token request and written [token.json] as
    usual, and then only logs the [FileNotFoundError]; nothing is
    submitted. *)
Theorem missing_events_file_found_after_authentication (w : World)
    (tok : option token_file) (service : Service) :
  str_truthy (getenv w "CALENDAR_ID") = true ->
  calendar_events_csv w = None ->
  let s1 := snd (logger INFO (Text "Starting authentication process")
                   (initial_state tok)) in
  fst (authenticate_google_calendar w s1) = Ok service ->
  trace (snd (main w (initial_state tok)))
  = (trace (snd (authenticate_google_calendar w s1))
     ++ [Log INFO (Text "Authentication successful");
         Log ERROR (RunError (FileNotFoundError "calendar_events.csv"))])%list /\
  token_json (snd (main w (initial_state tok)))
  = token_json (snd (authenticate_google_calendar w s1)) /\
  inserted (trace (snd (main w (initial_state tok)))) = [].
Proof.
  intros Hcal Hfile s1 Hauth. rewrite (main_phases w _ Hcal). fold s1.
  destruct (authenticate_effects w s1) as (added & Ht & _ & _ & Hi).
  destruct (authenticate_google_calendar w s1) as [[service'|e] s2];
    cbn [fst snd] in *; [|discriminate].
  unfold add_events_from_csv. rewrite Hfile.
  unfold bind, lift, logger, emit. cbn [fst snd trace token_json].
  split; [now rewrite <- app_assoc|]. split; [reflexivity|].
  rewrite Ht. subst s1. unfold logger, emit. cbn [snd trace initial_state].
  rewrite !inserted_app, Hi. reflexivity.
Qed.

Lemma missing_events_file_found_after_authentication_witness :
  let w := with_table (Fixture.world Fixture.with_calendar []) None in
  let s1 := snd (logger INFO (Text "Starting authentication process")
                   (initial_state None)) in
  trace (snd (main w (initial_state None)))
  = (trace (snd (authenticate_google_calendar w s1))
     ++ [Log INFO (Text "Authentication successful");
         Log ERROR (RunError (FileNotFoundError "calendar_events.csv"))])%list /\
  token_json (snd (main w (initial_state None)))
  = token_json (snd (authenticate_google_calendar w s1)) /\
  inserted (trace (snd (main w (initial_state None)))) = [].
Proof.
  intros w s1.
  apply (missing_events_file_found_after_authentication w None
           (mk_Service Fixture.fresh)); reflexivity.
Defined.

(** ** The documented input format, parsed and rendered *)

Section CanonicalText.
Import Datetime Strptime.

Lemma append_cons (x : ascii) (a b : string) :
  String x a +:+ b = String x (a +:+ b).
Proof. reflexivity. Qed.

Lemma append_nil (b : string) : "" +:+ b = b.
Proof. reflexivity. Qed.

Lemma string_app_assoc (a b c : string) : (a +:+ b) +:+ c = a +:+ (b +:+ c).
Proof.
  induction a as [|x a IH]; [reflexivity|]. now rewrite !append_cons, IH.
Qed.

Lemma nat_of_digit_char (d : Z) :
  nat_of_ascii (digit_char d) = (48 + Z.to_nat (d mod 10))%nat.
Proof.
  unfold digit_char. apply nat_ascii_embedding.
  pose proof (Z.mod_pos_bound d 10 ltac:(lia)). lia.
Qed.

Lemma digit_val_digit_char (d : Z) : digit_val (digit_char d) = d mod 10.
Proof.
  unfold digit_val. rewrite nat_of_digit_char.
  pose proof (Z.mod_pos_bound d 10 ltac:(lia)). lia.
Qed.

Lemma re_digit_digit_char (d : Z) (r : string) :
  re_digit (String (digit_char d) r) = [(d mod 10, r)].
Proof.
  unfold re_digit, re_range. rewrite digit_val_digit_char.
  pose proof (Z.mod_pos_bound d 10 ltac:(lia)).
  destruct (Z.leb_spec 0 (d mod 10)), (Z.leb_spec (d mod 10) 9); simpl; try lia.
  reflexivity.
Qed.

Lemma is_space_digit_char (d : Z) : is_space (digit_char d) = false.
Proof.
  unfold is_space. rewrite nat_of_digit_char.
  pose proof (Z.mod_pos_bound d 10 ltac:(lia)).
  apply orb_false_intro; apply andb_false_intro2; apply Nat.leb_gt; lia.
Qed.

Lemma zfill_2 (n : Z) :
  zfill 2 n = String (digit_char (n / 10)) (String (digit_char n) "").
Proof. reflexivity. Qed.

Lemma zfill_4 (n : Z) :
  zfill 4 n = String (digit_char (n / 10 / 10 / 10))
                (String (digit_char (n / 10 / 10))
                   (String (digit_char (n / 10)) (String (digit_char n) ""))).
Proof. reflexivity. Qed.

Section Stages.
Context {A : Type} (k : Z -> re A).

Lemma stage_year (y : Z) (rest : string) :
  0 <= y <= 9999 ->
  re_bind re_Y (fun Y => re_bind (re_lit "-") (fun _ => k Y))
    (zfill 4 y +:+ String "-" rest)
  = k y rest.
Proof.
  intros Hy. rewrite zfill_4, !append_cons, append_nil.
  unfold re_Y, re_bind at 1 2 3 4 5.
  rewrite re_digit_digit_char. cbn [flat_map]. 
  rewrite re_digit_digit_char. cbn [flat_map]. 
  rewrite re_digit_digit_char. cbn [flat_map]. 
  rewrite re_digit_digit_char. cbn [flat_map re_ret app].
  unfold re_bind, re_lit. cbn [flat_map Ascii.eqb Bool.eqb app].
  rewrite !app_nil_r.
  replace (1000 * (y / 10 / 10 / 10 mod 10) + 100 * (y / 10 / 10 mod 10) + 10 * (y / 10 mod 10) + y mod 10) with y; [reflexivity|].
  Z.to_euclidean_division_equations. lia.
Qed.
End Stages.

Lemma Z_cases_below (P : Z -> Prop) (n : nat) :
  (forall i, (i < n)%nat -> P (Z.of_nat i)) ->
  forall x, 0 <= x < Z.of_nat n -> P x.
Proof.
  intros H x Hx. replace x with (Z.of_nat (Z.to_nat x)) by lia. apply H. lia.
Qed.

Section Stages2.
Context {A : Type}.

Lemma stage_month (k : Z -> re A) (m : Z) (rest : string) :
  1 <= m <= 12 ->
  re_bind re_m (fun m' => re_bind (re_lit "-") (fun _ => k m'))
    (zfill 2 m +:+ String "-" rest)
  = k m rest.
Proof.
  intros Hm. revert m Hm.
  assert (H : forall m, 0 <= m < Z.of_nat 13 -> 1 <= m ->
     re_bind re_m (fun m' => re_bind (re_lit "-") (fun _ => k m'))
       (zfill 2 m +:+ String "-" rest) = k m rest).
  { apply (Z_cases_below (fun m => 1 <= m -> _ = k m rest)).
    intros i Hi Hpos.
    do 13 (destruct i as [|i];
           [try (exfalso; cbn in Hpos; lia);
            cbv - [app]; simpl; rewrite ?app_nil_r; reflexivity|]).
    lia. }
  intros m Hm. apply H; lia.
Qed.

Lemma stage_day (K : Z -> re A) (d : Z) (rest : string) :
  (forall v c r, is_space c = false -> K v (String c r) = []) ->
  1 <= d <= 31 ->
  re_bind re_d K (zfill 2 d +:+ String " " rest) = K d (String " " rest).
Proof.
  intros HK Hd. revert d Hd.
  assert (H : forall d, 0 <= d < Z.of_nat 32 -> 1 <= d ->
     re_bind re_d K (zfill 2 d +:+ String " " rest) = K d (String " " rest)).
  { apply (Z_cases_below (fun d => 1 <= d -> _ = K d (String " " rest))).
    intros i Hi Hpos.
    do 32 (destruct i as [|i];
           [try (exfalso; cbn in Hpos; lia);
            cbv - [app]; simpl;
            repeat match goal with
                   | |- context [K ?v (String ?c ?r)] =>
                       rewrite (HK v c r eq_refl)
                   end;
            rewrite ?app_nil_r; reflexivity|]).
    lia. }
  intros d Hd. apply H; lia.
Qed.

Lemma stage_spaces (k : re A) (rest : string) :
  re_spaces rest = [] ->
  re_bind re_spaces (fun _ => k) (String " " rest) = k rest.
Proof.
  intros H. unfold re_bind. cbn [re_spaces].
  change (is_space " ") with true. cbv iota. rewrite H. cbn. apply app_nil_r.
Qed.

Lemma spaces_fail (k : re A) (c : ascii) (r : string) :
  is_space c = false -> re_bind re_spaces (fun _ => k) (String c r) = [].
Proof. intros H. unfold re_bind. cbn [re_spaces]. now rewrite H. Qed.

Lemma stage_hour (k : Z -> re A) (h : Z) (rest : string) :
  0 <= h <= 23 ->
  re_bind re_H (fun h' => re_bind (re_lit ":") (fun _ => k h'))
    (zfill 2 h +:+ String ":" rest)
  = k h rest.
Proof.
  intros Hh. revert h Hh.
  assert (H : forall h, 0 <= h < Z.of_nat 24 ->
     re_bind re_H (fun h' => re_bind (re_lit ":") (fun _ => k h'))
       (zfill 2 h +:+ String ":" rest) = k h rest).
  { apply (Z_cases_below (fun h => _ = k h rest)).
    intros i Hi.
    do 24 (destruct i as [|i];
           [cbv - [app]; simpl; rewrite ?app_nil_r; reflexivity|]).
    lia. }
  intros h Hh. apply H; lia.
Qed.

Lemma stage_minute (f : Z -> A) (mi : Z) :
  0 <= mi <= 59 ->
  exists tl, re_bind re_M (fun M => re_ret (f M)) (zfill 2 mi) = (f mi, "") :: tl.
Proof.
  intros Hmi. revert mi Hmi.
  assert (H : forall mi, 0 <= mi < Z.of_nat 60 ->
     exists tl, re_bind re_M (fun M => re_ret (f M)) (zfill 2 mi) = (f mi, "") :: tl).
  { apply (Z_cases_below (fun mi => exists tl, _ = (f mi, "") :: tl)).
    intros i Hi.
    do 60 (destruct i as [|i]; [eexists; cbv - [app]; simpl; reflexivity|]).
    lia. }
  intros mi Hmi. apply H; lia.
Qed.

End Stages2.

Lemma re_spaces_zfill_2 (n : Z) (r : string) : re_spaces (zfill 2 n +:+ r) = [].
Proof.
  rewrite zfill_2, !append_cons. cbn [re_spaces].
  now rewrite is_space_digit_char.
Qed.

Lemma format_regex_canonical (y m d h mi : Z) :
  0 <= y <= 9999 -> 1 <= m <= 12 -> 1 <= d <= 31 -> 0 <= h <= 23 ->
  0 <= mi <= 59 ->
  exists tl,
    format_regex
      (zfill 4 y +:+ String "-" (zfill 2 m +:+ String "-"
         (zfill 2 d +:+ String " " (zfill 2 h +:+ String ":" (zfill 2 mi)))))
    = (mk_datetime y m d h mi 0, "") :: tl.
Proof.
  intros Hy Hm Hd Hh Hmi. unfold format_regex.
  rewrite stage_year by exact Hy.
  rewrite stage_month by exact Hm.
  rewrite stage_day; [|intros v c r Hc; apply spaces_fail; exact Hc|exact Hd].
  rewrite stage_spaces by apply re_spaces_zfill_2.
  rewrite stage_hour by exact Hh.
  apply (stage_minute (fun M => mk_datetime y m d h M 0) mi Hmi).
Qed.

Lemma days_in_month_le_31 (y m : Z) : 1 <= m <= 12 -> days_in_month y m <= 31.
Proof.
  intros Hm. unfold days_in_month.
  assert (m = 1 \/ m = 2 \/ m = 3 \/ m = 4 \/ m = 5 \/ m = 6 \/ m = 7 \/ m = 8
          \/ m = 9 \/ m = 10 \/ m = 11 \/ m = 12) as Hc by lia.
  repeat destruct Hc as [-> | Hc]; try subst m; destruct (is_leap y);
    apply Z.leb_le; reflexivity.
Qed.

Lemma strptime_canonical (dt : datetime) :
  check_fields dt = true ->
  second dt = 0 ->
  strptime (date_text dt +:+ " " +:+ time_text dt) = Ok dt.
Proof.
  intros Hck Hs. pose proof Hck as Hck'.
  unfold check_fields in Hck'.
  repeat (apply andb_prop in Hck'; destruct Hck' as [Hck' ?]).
  destruct dt as [y m d h mi s]; cbn [year month day hour minute second] in *.
  subst s.
  repeat match goal with
         | H : (_ <=? _) = true |- _ => apply Z.leb_le in H
         end.
  pose proof (days_in_month_le_31 y m ltac:(lia)).
  destruct (format_regex_canonical y m d h mi) as [tl Hre]; try lia.
  unfold strptime, date_text, time_text.
  cbn [year month day hour minute second].
  rewrite !string_app_assoc.
  change (format_regex
            (zfill 4 y +:+ String "-" (zfill 2 m +:+ String "-"
               (zfill 2 d +:+ String " " (zfill 2 h +:+ String ":" (zfill 2 mi))))))
    with (format_regex
            (zfill 4 y +:+ "-" +:+ zfill 2 m +:+ "-" +:+ zfill 2 d +:+ " "
             +:+ zfill 2 h +:+ ":" +:+ zfill 2 mi)) in Hre.
  rewrite Hre. cbn [negb String.eqb]. now rewrite Hck.
Qed.

Lemma isoformat_canonical (dt : datetime) :
  second dt = 0 ->
  isoformat dt = date_text dt +:+ "T" +:+ time_text dt +:+ ":00".
Proof.
  intros Hs. unfold isoformat, date_text, time_text. rewrite Hs.
  rewrite !string_app_assoc. reflexivity.
Qed.

End CanonicalText.

(** X2.  A valid date and time written as the input
    format documents them, [YYYY-MM-DD] and [HH:MM] with leading zeros, is
    always accepted, and the event carries the same digits: under the
    documented header the start and end [dateTime] are the date, [T], the
    time and [:00]. *)
Theorem canonical_row_event (su de lo : string) (dt dt' : Datetime.datetime) :
  Datetime.check_fields dt = true ->
  Datetime.second dt = 0 ->
  Datetime.check_fields dt' = true ->
  Datetime.second dt' = 0 ->
  Strptime.strptime (date_text dt +:+ " " +:+ time_text dt) = Ok dt /\
  build_event
    (Csv.make_row Fixture.header
       [su; date_text dt; time_text dt; date_text dt'; time_text dt'; de; lo])
  = Ok (mk_Event (Some su) (Some lo) (Some de)
          (mk_time_point (date_text dt +:+ "T" +:+ time_text dt +:+ ":00")
             "America/New_York")
          (mk_time_point (date_text dt' +:+ "T" +:+ time_text dt' +:+ ":00")
             "America/New_York")
          (create_weekly_recurrence dt)).
Proof.
  intros Hc Hs Hc' Hs'. split; [exact (strptime_canonical dt Hc Hs)|].
  rewrite (build_event_full_row su _ _ _ _ de lo dt dt'
             (strptime_canonical dt Hc Hs) (strptime_canonical dt' Hc' Hs')).
  now rewrite (isoformat_canonical dt Hs), (isoformat_canonical dt' Hs').
Qed.

Lemma canonical_row_event_witness :
  let dt := Datetime.mk_datetime 2024 2 29 9 5 0 in
  let dt' := Datetime.mk_datetime 2024 3 1 10 0 0 in
  Strptime.strptime (date_text dt +:+ " " +:+ time_text dt) = Ok dt /\
  build_event
    (Csv.make_row Fixture.header
       ["Leap"; date_text dt; time_text dt; date_text dt'; time_text dt';
        "Day"; "Desk"])
  = Ok (mk_Event (Some "Leap") (Some "Desk") (Some "Day")
          (mk_time_point (date_text dt +:+ "T" +:+ time_text dt +:+ ":00")
             "America/New_York")
          (mk_time_point (date_text dt' +:+ "T" +:+ time_text dt' +:+ ":00")
             "America/New_York")
          (create_weekly_recurrence dt)).
Proof.
  intros dt dt'.
  apply (canonical_row_event "Leap" "Day" "Desk" dt dt'); reflexivity.
Defined.

(** ** Consecutive days *)

(** X11.  For every valid date, the rule derived for the
    following calendar day, over month ends, year ends and leap days,
    carries the next day code in the cycle MO, TU, WE, TH, FR, SA, SU. *)
Theorem next_day_next_code (dt : Datetime.datetime) :
  Datetime.check_fields dt = true ->
  create_weekly_recurrence (next_day dt)
  = ["RRULE:FREQ=WEEKLY;COUNT=52;BYDAY="
     +:+ weekday_code ((Datetime.weekday dt + 1) mod 7)].
Proof.
  intros H. rewrite create_weekly_recurrence_eq.
  now rewrite (weekday_next_day dt H).
Qed.

Lemma next_day_next_code_witness :
  create_weekly_recurrence (next_day (Datetime.mk_datetime 2023 12 31 23 0 0))
  = ["RRULE:FREQ=WEEKLY;COUNT=52;BYDAY="
     +:+ weekday_code
           ((Datetime.weekday (Datetime.mk_datetime 2023 12 31 23 0 0) + 1) mod 7)].
Proof.
  apply (next_day_next_code (Datetime.mk_datetime 2023 12 31 23 0 0)).
  reflexivity.
Defined.

(** ** The listing of the environment *)

Lemma log_environment_same_names (a b : list (string * string)) :
  same_names a b -> forall s, log_environment a s = log_environment b s.
Proof.
  intros H. induction H as [|[k v] [k' v'] a b [Hk Hv] _ IH]; intros s;
    [reflexivity|].
  cbn [fst snd] in Hk, Hv. subst k'. cbn [log_environment]. unfold bind.
  destruct (String.eqb_spec k "CALENDAR_ID") as [Heq|Hne].
  - rewrite (Hv Heq). unfold logger, emit. apply IH.
  - unfold logger, emit. apply IH.
Qed.

(** X21.  The log lines written when the module is
    loaded depend on the names of the environment variables and on the
    value of [CALENDAR_ID] only: two environments with the same names in
    the same order and the same [CALENDAR_ID] give the same trace, whatever
    the other values are. *)
Theorem environment_listing_hides_values (w : World) (dotenv_path : string)
    (a b : list (string * string)) (s : State) :
  same_names a b ->
  module_level w dotenv_path a s = module_level w dotenv_path b s.
Proof.
  intros H. unfold module_level, bind, logger, emit.
  now rewrite (log_environment_same_names a b H).
Qed.

Lemma environment_listing_hides_values_witness :
  let w := Fixture.world Fixture.with_calendar [] in
  module_level w ".env"
    [("HOME", "/home/ann"); ("CALENDAR_ID", "primary"); ("API_KEY", "s3cr3t")]
    (initial_state None)
  = module_level w ".env"
      [("HOME", "/root"); ("CALENDAR_ID", "primary"); ("API_KEY", "other")]
      (initial_state None).
Proof.
  intros w.
  apply (environment_listing_hides_values w ".env").
  repeat constructor; cbn; intros; discriminate.
Defined.

Lemma log_environment_lines (items : list (string * string)) :
  forall s,
    log_environment items s
    = (Ok tt, mk_State (token_json s) (trace s ++ map environment_line items)).
Proof.
  induction items as [|[k v] items IH]; intros s.
  - cbn. now rewrite app_nil_r, state_eta.
  - cbn [log_environment map]. unfold bind, environment_line. cbn [fst snd].
    destruct (k =? "CALENDAR_ID")%string; unfold logger, emit; rewrite IH;
      cbn [token_json trace]; now rewrite <- app_assoc.
Qed.

(** Loading the module writes one line per environment variable, in the
    order of the environment: the name and [[REDACTED]] for every variable
    but [CALENDAR_ID], whose value is written in clear; it never raises and
    touches neither [token.json] nor the network. *)
Lemma environment_listing_lines (w : World) (dotenv_path : string)
    (items : list (string * string)) (s : State) :
  fst (module_level w dotenv_path items s) = Ok tt /\
  token_json (snd (module_level w dotenv_path items s)) = token_json s /\
  exists verdict,
    trace (snd (module_level w dotenv_path items s))
    = (trace s
       ++ [Log INFO (Text ("Found .env file: " +:+ dotenv_path));
           Log INFO (Text "Environment variables:")]
       ++ map environment_line items
       ++ [verdict])%list /\
    is_network verdict = false /\
    (forall v, In ("CALENDAR_ID", v) items ->
       In (Log INFO (Text ("CALENDAR_ID: " +:+ v)))
         (map environment_line items)).
Proof.
  unfold module_level, bind, logger, emit. rewrite log_environment_lines.
  cbn [fst snd token_json trace].
  destruct (str_truthy (getenv w "CALENDAR_ID")); cbn [fst snd token_json trace];
    (split; [reflexivity|]); (split; [reflexivity|]); eexists;
    (split; [repeat rewrite <- app_assoc; reflexivity|]);
    (split; [reflexivity|]);
    intros v Hin; apply (in_map environment_line) in Hin; exact Hin.
Qed.
